(** * PostCommentForm: a model of [src/PostCommentForm.tsx]

    The component owns three React state cells ([formData], [errors],
    [isSubmitting]), one validation function, one input handler and two
    submit handlers that finish in a [setTimeout] callback.  The model
    below keeps that shape:

    - JavaScript strings are lists of UTF-16 code units, [trim] and
      truthiness follow ECMAScript;
    - [FormErrors], an object with optional keys, is a finite map whose
      values may be [undefined] ([None]);
    - the state cells, the timer queue, the console and the clock form a
      [World]; handlers are computations in a state monad over it;
    - values a handler reads from its enclosing render ([formData],
      [errors]) are Section variables, values it reaches through an
      updater ([prev => ...]) are read from the cell. *)

From Stdlib Require Import NArith String Ascii.
From stdpp Require Import gmap list fin_maps.

Local Open Scope N_scope.

(** ** JavaScript strings *)

Module JS.

(** A string value: its UTF-16 code units. *)
Abbreviation jsstring := (list N).

(** A literal of the source (all of them are ASCII). *)
Definition lit (s : string) : jsstring :=
  N_of_ascii <$> list_ascii_of_string s.

(** ECMAScript [WhiteSpace] and [LineTerminator] code points, the set
    [String.prototype.trim] strips.  All lie in the basic plane, so each
    is one code unit. *)
Definition is_white (c : N) : bool :=
  ((9 <=? c) && (c <=? 13))          (* TAB LF VT FF CR *)
  || (c =? 32)                       (* SPACE *)
  || (c =? 160)                      (* NO-BREAK SPACE *)
  || (c =? 5760)                     (* OGHAM SPACE MARK *)
  || ((8192 <=? c) && (c <=? 8202))  (* EN QUAD .. HAIR SPACE *)
  || (c =? 8232) || (c =? 8233)      (* LINE / PARAGRAPH SEPARATOR *)
  || (c =? 8239)                     (* NARROW NO-BREAK SPACE *)
  || (c =? 8287)                     (* MEDIUM MATHEMATICAL SPACE *)
  || (c =? 12288)                    (* IDEOGRAPHIC SPACE *)
  || (c =? 65279).                   (* ZERO WIDTH NO-BREAK SPACE *)

Fixpoint trimStart (s : jsstring) : jsstring :=
  match s with
  | c :: s' => if is_white c then trimStart s' else s
  | [] => []
  end.

Definition trimEnd (s : jsstring) : jsstring :=
  reverse (trimStart (reverse s)).

Definition trim (s : jsstring) : jsstring := trimEnd (trimStart s).

(** [ToBoolean] on a string: only the empty string is falsy. *)
Definition truthy (s : jsstring) : bool :=
  match s with [] => false | _ :: _ => true end.

(** [ToBoolean] on [string | undefined]. *)
Definition truthy_opt (v : option jsstring) : bool :=
  match v with Some s => truthy s | None => false end.

(** [{...a, ...b}] on objects used as maps: the keys of [b] win. *)
Definition spread {K : Type} `{Countable K} {V : Type} (a b : gmap K V) : gmap K V :=
  b ∪ a.

End JS.
Import JS.

(** ** Data model *)

(** [interface FormData]. *)
Record FormData := mkFormData {
  postTitle : jsstring;
  postContent : jsstring;
  comment : jsstring
}.

(** [keyof FormData]. *)
Inductive Field := K_postTitle | K_postContent | K_comment.

#[global] Instance Field_eq_dec : EqDecision Field.
Proof. solve_decision. Defined.

#[global] Instance Field_countable : Countable Field.
Proof.
  refine (inj_countable'
    (λ k, match k with K_postTitle => 0%nat | K_postContent => 1%nat | K_comment => 2%nat end)
    (λ n, match n with 0%nat => K_postTitle | 1%nat => K_postContent | _ => K_comment end) _).
  by intros [].
Defined.

(** [formData[field]]. *)
Definition get (d : FormData) (field : Field) : jsstring :=
  match field with
  | K_postTitle => postTitle d
  | K_postContent => postContent d
  | K_comment => comment d
  end.

(** [{...prev, [field]: value}]. *)
Definition set (field : Field) (value : jsstring) (prev : FormData) : FormData :=
  match field with
  | K_postTitle => mkFormData value (postContent prev) (comment prev)
  | K_postContent => mkFormData (postTitle prev) value (comment prev)
  | K_comment => mkFormData (postTitle prev) (postContent prev) value
  end.

(** [interface FormErrors]: every key optional, a present key holds a
    string or (after an edit) [undefined]. *)
Abbreviation FormErrors := (gmap Field (option jsstring)).

(** [errors[field]]: a missing key reads as [undefined]. *)
Definition read (e : FormErrors) (field : Field) : option jsstring :=
  default None (e !! field).

(** What the two [console.log] calls print.  [timestamp] is the time value
    of the [Date] whose ISO rendering is logged. *)
Inductive LogEntry :=
  | CreatingPost (title content : jsstring) (timestamp : N)
  | AddingComment (comment : jsstring) (timestamp : N).

(** The two arrow functions handed to [setTimeout], closure-converted: each
    carries the [formData] of the render whose handler created it. *)
Inductive Callback :=
  | CreatePostDone (captured : FormData)
  | AddCommentDone (captured : FormData).

Record Timer := mkTimer { due : N; callback : Callback }.

(** The component instance together with the parts of the runtime it
    touches. *)
Record World := mkWorld {
  st_formData : FormData;          (* useState<FormData> *)
  st_errors : FormErrors;          (* useState<FormErrors> *)
  st_isSubmitting : bool;          (* useState(false) *)
  st_timers : list Timer;          (* pending setTimeout callbacks *)
  st_console : list LogEntry;      (* console output, oldest first *)
  st_clock : N                     (* milliseconds *)
}.

(** The state at mount: the three [useState] initial values. *)
Definition initial : World :=
  mkWorld (mkFormData [] [] []) ∅ false [] [] 0.

(** ** Effects *)

Definition M (A : Type) : Type := World → A * World.

#[global] Instance M_ret : MRet M := λ A a w, (a, w).
#[global] Instance M_bind : MBind M := λ A B f m w, let '(a, w') := m w in f a w'.

Definition exec {A} (m : M A) (w : World) : World := (m w).2.
Definition eval {A} (m : M A) (w : World) : A := (m w).1.

Definition setFormData (upd : FormData → FormData) : M unit := λ w,
  (tt, mkWorld (upd (st_formData w)) (st_errors w) (st_isSubmitting w)
               (st_timers w) (st_console w) (st_clock w)).

Definition setErrors (upd : FormErrors → FormErrors) : M unit := λ w,
  (tt, mkWorld (st_formData w) (upd (st_errors w)) (st_isSubmitting w)
               (st_timers w) (st_console w) (st_clock w)).

Definition setIsSubmitting (b : bool) : M unit := λ w,
  (tt, mkWorld (st_formData w) (st_errors w) b
               (st_timers w) (st_console w) (st_clock w)).

Definition setTimeout (cb : Callback) (delay : N) : M unit := λ w,
  (tt, mkWorld (st_formData w) (st_errors w) (st_isSubmitting w)
               (st_timers w ++ [mkTimer (st_clock w + delay) cb])
               (st_console w) (st_clock w)).

Definition console_log (entry : LogEntry) : M unit := λ w,
  (tt, mkWorld (st_formData w) (st_errors w) (st_isSubmitting w)
               (st_timers w) (st_console w ++ [entry]) (st_clock w)).

(** [new Date()]. *)
Definition new_Date : M N := λ w, (st_clock w, w).

(** ** The component's functions *)

Section Render.

(** The values the functions of one render close over. *)
Variable formData : FormData.
Variable errors : FormErrors.

(** The arrow function of [fields.forEach], acting on [newErrors]. *)
Definition check_field (newErrors : FormErrors) (field : Field) : FormErrors :=
  if negb (truthy (trim (get formData field))) then
    match field with
    | K_postTitle => <[K_postTitle := Some (lit "Post title is required")]> newErrors
    | K_postContent => <[K_postContent := Some (lit "Post content is required")]> newErrors
    | K_comment => <[K_comment := Some (lit "Comment is required")]> newErrors
    end
  else newErrors.

Definition validateForm (fieldsToValidate : option (list Field)) : M bool :=
  let newErrors : FormErrors := ∅ in
  let fields := default [K_postTitle; K_postContent; K_comment] fieldsToValidate in
  let newErrors := foldl check_field newErrors fields in
  setErrors (λ prev, spread prev newErrors) ;;
  mret (bool_decide (size newErrors = 0%nat)).

Definition handleInputChange (field : Field) (value : jsstring) : M unit :=
  setFormData (λ prev, set field value prev) ;;
  (* Clear error when user starts typing *)
  if truthy_opt (read errors field)
  then setErrors (λ prev, <[field := None]> prev)
  else mret tt.

Definition handleCreatePost : M unit :=
  valid ← validateForm (Some [K_postTitle; K_postContent]);
  if negb valid then mret tt
  else
    setIsSubmitting true ;;
    setTimeout (CreatePostDone formData) 500.

Definition handleAddComment : M unit :=
  valid ← validateForm (Some [K_comment]);
  if negb valid then mret tt
  else
    setIsSubmitting true ;;
    setTimeout (AddCommentDone formData) 500.

(** The body of the callback of [handleCreatePost]. *)
Definition createPostDone : M unit :=
  now ← new_Date;
  console_log (CreatingPost (postTitle formData) (postContent formData) now) ;;
  (* Reset post fields *)
  setFormData (λ prev, mkFormData [] [] (comment prev)) ;;
  setIsSubmitting false.

(** The body of the callback of [handleAddComment]. *)
Definition addCommentDone : M unit :=
  now ← new_Date;
  console_log (AddingComment (comment formData) now) ;;
  (* Reset comment field *)
  setFormData (λ prev, mkFormData (postTitle prev) (postContent prev) []) ;;
  setIsSubmitting false.

End Render.

Definition run_callback (cb : Callback) : M unit :=
  match cb with
  | CreatePostDone captured => createPostDone captured
  | AddCommentDone captured => addCommentDone captured
  end.

(** ** The runtime around the component *)

(** The runtime runs the [i]-th pending timer once its delay has elapsed. *)
Definition fire (i : nat) (w : World) : option World :=
  match st_timers w !! i with
  | Some t =>
      if due t <=? st_clock w
      then Some (exec (run_callback (callback t))
                   (mkWorld (st_formData w) (st_errors w) (st_isSubmitting w)
                            (delete i (st_timers w)) (st_console w) (st_clock w)))
      else None
  | None => None
  end.

Definition elapse (dt : N) (w : World) : World :=
  mkWorld (st_formData w) (st_errors w) (st_isSubmitting w)
          (st_timers w) (st_console w) (st_clock w + dt).

(** Every render re-creates the handlers, and React re-renders before the
    next event is delivered: a handler runs with the closure of the state
    it is invoked in. *)
Definition on_change (field : Field) (value : jsstring) (w : World) : World :=
  exec (handleInputChange (st_errors w) field value) w.

Definition on_submit_post (w : World) : World :=
  exec (handleCreatePost (st_formData w)) w.

Definition on_submit_comment (w : World) : World :=
  exec (handleAddComment (st_formData w)) w.

Inductive Event :=
  | Change (field : Field) (value : jsstring)
  | SubmitPost
  | SubmitComment
  | Elapse (dt : N)
  | TimerFires (i : nat).

(** The handlers called directly, whatever the state. *)
Definition invoke (e : Event) (w : World) : option World :=
  match e with
  | Change field value => Some (on_change field value w)
  | SubmitPost => Some (on_submit_post w)
  | SubmitComment => Some (on_submit_comment w)
  | Elapse dt => Some (elapse dt w)
  | TimerFires i => fire i w
  end.

(** The same events through the rendered form: the input, both textareas
    and both submit buttons carry [disabled={isSubmitting}], and a disabled
    control delivers neither [onChange] nor [onSubmit]. *)
Definition dispatch (e : Event) (w : World) : option World :=
  match e with
  | Change _ _ | SubmitPost | SubmitComment =>
      if st_isSubmitting w then None else invoke e w
  | Elapse _ | TimerFires _ => invoke e w
  end.

Fixpoint run (step : Event → World → option World)
    (es : list Event) (w : World) : option World :=
  match es with
  | [] => Some w
  | e :: es' =>
      match step e w with
      | Some w' => run step es' w'
      | None => None
      end
  end.

(** States the handlers and timers can produce at all. *)
Definition reachable (w : World) : Prop :=
  ∃ es, run invoke es initial = Some w.

(** States a user of the rendered form can produce. *)
Definition ui_reachable (w : World) : Prop :=
  ∃ es, run dispatch es initial = Some w.

(** ** Vocabulary of the specification *)

(** The fixed message of each field. *)
Definition required_message (field : Field) : jsstring :=
  match field with
  | K_postTitle => lit "Post title is required"
  | K_postContent => lit "Post content is required"
  | K_comment => lit "Comment is required"
  end.

(** A value that is empty or whitespace-only. *)
Definition blank (s : jsstring) : Prop := trim s = [].

(** A field shows an error: the test of [errors.postTitle && ...] in the
    markup and of [if (errors[field])] in the input handler. *)
Definition has_error (w : World) (field : Field) : bool :=
  truthy_opt (read (st_errors w) field).

(** The fields [validateForm] looks at. *)
Definition targets (fieldsToValidate : option (list Field)) : list Field :=
  default [K_postTitle; K_postContent; K_comment] fieldsToValidate.

Inductive SubForm := PostForm | CommentForm.

Definition required_fields (f : SubForm) : list Field :=
  match f with
  | PostForm => [K_postTitle; K_postContent]
  | CommentForm => [K_comment]
  end.

Definition submit (f : SubForm) : World → World :=
  match f with
  | PostForm => on_submit_post
  | CommentForm => on_submit_comment
  end.


#[global] Instance blank_dec (s : jsstring) : Decision (blank s).
Proof. unfold blank. apply _. Defined.

(** ** Validation history of a run

    What the data model of the specification speaks of but the component
    does not store: for each field, the outcome of the latest validation
    that looked at it, and whether the field was edited after it. *)

Inductive Verdict := NotValidated | FoundEmpty | FoundFilled.

Record History := mkHistory { last_validation : Verdict; edited_since : bool }.

Definition no_history : Field → History := λ _, mkHistory NotValidated false.

(** The fields the handler of an event passes to [validateForm]. *)
Definition validated_by (e : Event) : list Field :=
  match e with
  | SubmitPost => [K_postTitle; K_postContent]
  | SubmitComment => [K_comment]
  | Change _ _ | Elapse _ | TimerFires _ => []
  end.

(** The history after event [e] was handled in world [w]. *)
Definition note (e : Event) (w : World) (h : Field → History) : Field → History :=
  λ k,
    match e with
    | Change field _ =>
        if decide (k = field) then mkHistory (last_validation (h k)) true else h k
    | _ =>
        if decide (k ∈ validated_by e)
        then mkHistory (if decide (blank (get (st_formData w) k))
                        then FoundEmpty else FoundFilled) false
        else h k
    end.

(** A run of directly invoked handlers, with its history. *)
Fixpoint run_noting (es : list Event) (w : World) (h : Field → History)
    : option (World * (Field → History)) :=
  match es with
  | [] => Some (w, h)
  | e :: es' =>
      match invoke e w with
      | Some w' => run_noting es' w' (note e w h)
      | None => None
      end
  end.

(** Every message in the error mapping is the one [validateForm] records
    for its field. *)
Definition errors_recorded (w : World) : Prop :=
  ∀ k msg, st_errors w !! k = Some (Some msg) → msg = required_message k.

(** [validateForm] called from the render of the current state. *)
Definition on_validate (fieldsToValidate : option (list Field)) (w : World)
    : bool * World :=
  validateForm (st_formData w) fieldsToValidate w.

(** At most one completion is pending, and the flag says whether one is. *)
Definition single_flight (w : World) : Prop :=
  (st_timers w = [] ∧ st_isSubmitting w = false)
  ∨ (∃ t, st_timers w = [t] ∧ st_isSubmitting w = true).

(** An error is shown only on a field that is blank. *)
Definition errors_on_blank (w : World) : Prop :=
  ∀ k, has_error w k = true → blank (get (st_formData w) k).

(** An error is shown exactly on the fields whose latest validation found
    them empty and that were not edited since. *)
Definition errors_track_history (w : World) (h : Field → History) : Prop :=
  ∀ k, has_error w k = true ↔
       last_validation (h k) = FoundEmpty ∧ edited_since (h k) = false.

(** ** Sample states *)

(** All three fields filled in, nothing submitted yet. *)
Definition hello_world : World :=
  mkWorld (mkFormData (lit "Hello") (lit "World") (lit "Nice post!")) ∅ false
          [] [] 0.

(** A title of three spaces over a proper content. *)
Definition spaces_for_title : World :=
  mkWorld (mkFormData (lit "   ") (lit "World") []) ∅ false [] [] 0.

(** A post submission in flight: [hello_world] after its post form was
    submitted. *)
Definition in_flight : World :=
  mkWorld (mkFormData (lit "Hello") (lit "World") (lit "Nice post!")) ∅ true
          [mkTimer 500 (CreatePostDone
             (mkFormData (lit "Hello") (lit "World") (lit "Nice post!")))]
          [] 0.

Definition typing_and_submitting : list Event :=
  [Change K_postTitle (lit "Hello"); Change K_postContent (lit "World");
   Change K_comment (lit "Nice post!"); SubmitPost].

(** Written down by hand, not produced by a run: all fields filled in
    while field [k] carries its message.  No run of the handlers reaches
    it (see [no_stale_error_when_valid]). *)
Definition stale (k : Field) : World :=
  mkWorld (mkFormData (lit "a") (lit "b") (lit "c"))
          {[ k := Some (required_message k) ]} false [] [] 0.

(** The post form submitted empty. *)
Definition rejected : World := on_submit_post initial.

(** The empty post form submitted, then a space typed into the title. *)
Definition submit_then_space : list Event :=
  [SubmitPost; Change K_postTitle (lit " ")].

(** ** The markup

    What the component returns, as a tree.  The three values the markup
    reads are those of the render: [formData], [errors], [isSubmitting]. *)

(** The functions bound to [onChange] and [onSubmit]. *)
Inductive Handler :=
  | call_handleInputChange (field : Field)
      (* (e) => handleInputChange(field, e.target.value) *)
  | ref_handleCreatePost
  | ref_handleAddComment.

Inductive Attr :=
  | className (v : jsstring)
  | id_ (v : jsstring)
  | htmlFor (v : jsstring)
  | type_ (v : jsstring)
  | placeholder (v : jsstring)
  | value (v : jsstring)
  | rows (n : N)
  | disabled (b : bool)
  | onChange (h : Handler)
  | onSubmit (h : Handler).

#[warnings="-register-all"]
Inductive Node :=
  | Element (tag : string) (attrs : list Attr) (children : list Node)
  | Text (s : jsstring)
  | Undefined.

(** [v && node] as a child: [undefined] and the empty string stay what
    they are (React renders neither), anything else gives [node]. *)
Definition and_then (v : option jsstring) (node : Node) : Node :=
  match v with
  | None => Undefined
  | Some s => if truthy s then node else Text s
  end.

(** The text of [<span className="w-4 h-4 mr-1">], U+26A0 U+FE0F. *)
Definition warning_sign : jsstring := [9888; 65039].

Section Markup.

Variable formData : FormData.
Variable errors : FormErrors.
Variable isSubmitting : bool.

(** The paragraph under a control, shown through [errors.x && (...)]. *)
Definition error_paragraph (field : Field) : Node :=
  and_then (read errors field)
    (Element "p" [className (lit "mt-2 text-sm text-red-600 flex items-center")]
       [Element "span" [className (lit "w-4 h-4 mr-1")] [Text warning_sign];
        Text (default [] (read errors field))]).

Definition title_input : Node :=
  Element "input"
    [type_ (lit "text");
     id_ (lit "postTitle");
     value (postTitle formData);
     onChange (call_handleInputChange K_postTitle);
     className
       (lit "w-full px-4 py-3 border rounded-lg transition-colors duration-200 focus:outline-none focus:ring-2 focus:ring-blue-500 focus:border-transparent "
        ++ if truthy_opt (read errors K_postTitle)
           then lit "border-red-300 bg-red-50"
           else lit "border-gray-300 hover:border-gray-400 focus:border-blue-500");
     placeholder (lit "Enter your post title...");
     disabled isSubmitting]
    [].

Definition content_textarea : Node :=
  Element "textarea"
    [id_ (lit "postContent");
     rows 6;
     value (postContent formData);
     onChange (call_handleInputChange K_postContent);
     className
       (lit "w-full px-4 py-3 border rounded-lg transition-colors duration-200 focus:outline-none focus:ring-2 focus:ring-blue-500 focus:border-transparent resize-none "
        ++ if truthy_opt (read errors K_postContent)
           then lit "border-red-300 bg-red-50"
           else lit "border-gray-300 hover:border-gray-400 focus:border-blue-500");
     placeholder (lit "Write your post content here...");
     disabled isSubmitting]
    [].

Definition post_button : Node :=
  Element "button"
    [type_ (lit "submit");
     disabled isSubmitting;
     className (lit "w-full bg-blue-600 hover:bg-blue-700 disabled:bg-blue-400 text-white font-semibold py-3 px-6 rounded-lg transition-all duration-200 transform hover:scale-[1.02] active:scale-[0.98] focus:outline-none focus:ring-2 focus:ring-blue-500 focus:ring-offset-2 disabled:cursor-not-allowed disabled:transform-none")]
    [if isSubmitting
     then Element "span" [className (lit "flex items-center justify-center")]
            [Element "div"
               [className (lit "w-5 h-5 border-2 border-white border-t-transparent rounded-full animate-spin mr-2")]
               [];
             Text (lit "Creating Post...")]
     else Text (lit "Create Post")].

Definition post_form : Node :=
  Element "form" [onSubmit ref_handleCreatePost; className (lit "space-y-6")]
    [Element "div" []
       [Element "label"
          [htmlFor (lit "postTitle");
           className (lit "block text-sm font-medium text-gray-700 mb-2")]
          [Text (lit "Post Title *")];
        title_input;
        error_paragraph K_postTitle];
     Element "div" []
       [Element "label"
          [htmlFor (lit "postContent");
           className (lit "block text-sm font-medium text-gray-700 mb-2")]
          [Text (lit "Post Content *")];
        content_textarea;
        error_paragraph K_postContent];
     post_button].

Definition comment_textarea : Node :=
  Element "textarea"
    [id_ (lit "comment");
     rows 8;
     value (comment formData);
     onChange (call_handleInputChange K_comment);
     className
       (lit "w-full px-4 py-3 border rounded-lg transition-colors duration-200 focus:outline-none focus:ring-2 focus:ring-green-500 focus:border-transparent resize-none "
        ++ if truthy_opt (read errors K_comment)
           then lit "border-red-300 bg-red-50"
           else lit "border-gray-300 hover:border-gray-400 focus:border-green-500 bg-white");
     placeholder (lit "Share your thoughts, ask questions, or provide feedback...");
     disabled isSubmitting]
    [].

Definition comment_button : Node :=
  Element "button"
    [type_ (lit "submit");
     disabled isSubmitting;
     className (lit "w-full bg-green-600 hover:bg-green-700 disabled:bg-green-400 text-white font-semibold py-3 px-6 rounded-lg transition-all duration-200 transform hover:scale-[1.02] active:scale-[0.98] focus:outline-none focus:ring-2 focus:ring-green-500 focus:ring-offset-2 disabled:cursor-not-allowed disabled:transform-none")]
    [if isSubmitting
     then Element "span" [className (lit "flex items-center justify-center")]
            [Element "div"
               [className (lit "w-5 h-5 border-2 border-white border-t-transparent rounded-full animate-spin mr-2")]
               [];
             Text (lit "Adding Comment...")]
     else Text (lit "Add Comment")].

Definition comment_form : Node :=
  Element "form" [onSubmit ref_handleAddComment; className (lit "space-y-6")]
    [Element "div" []
       [Element "label"
          [htmlFor (lit "comment");
           className (lit "block text-sm font-medium text-gray-700 mb-2")]
          [Text (lit "Your Comment *")];
        comment_textarea;
        error_paragraph K_comment];
     comment_button].

(** The value of the [return] statement. *)
Definition render : Node :=
  Element "div"
    [className (lit "min-h-screen bg-gradient-to-br from-blue-50 to-indigo-100 p-4 sm:p-6 lg:p-8")]
    [Element "div" [className (lit "max-w-4xl mx-auto")]
       [Element "div" [className (lit "text-center mb-8")]
          [Element "h1"
             [className (lit "text-3xl sm:text-4xl font-bold text-gray-900 mb-2")]
             [Text (lit "Create Post & Comments")];
           Element "p" [className (lit "text-gray-600 text-lg")]
             [Text (lit "Share your thoughts and engage with the community")]];
        Element "div" [className (lit "bg-white rounded-2xl shadow-xl overflow-hidden")]
          [Element "div" [className (lit "grid lg:grid-cols-2 gap-0")]
             [(* Post Creation Section *)
              Element "div"
                [className (lit "p-6 sm:p-8 border-b lg:border-b-0 lg:border-r border-gray-200")]
                [Element "div" [className (lit "flex items-center mb-6")]
                   [Element "div" [className (lit "p-2 bg-blue-100 rounded-lg mr-3")]
                      [Element "Edit3" [className (lit "w-6 h-6 text-blue-600")] []];
                    Element "h2" [className (lit "text-2xl font-semibold text-gray-900")]
                      [Text (lit "Create Post")]];
                 post_form];
              (* Comment Section *)
              Element "div" [className (lit "p-6 sm:p-8 bg-gray-50")]
                [Element "div" [className (lit "flex items-center mb-6")]
                   [Element "div" [className (lit "p-2 bg-green-100 rounded-lg mr-3")]
                      [Element "MessageCircle" [className (lit "w-6 h-6 text-green-600")] []];
                    Element "h2" [className (lit "text-2xl font-semibold text-gray-900")]
                      [Text (lit "Add Comment")]];
                 comment_form]]];
        (* Footer *)
        Element "div" [className (lit "text-center mt-8 text-gray-500 text-sm")]
          [Element "p" []
             [Text (lit "Form data is logged to the browser console for development purposes.")]]]].

End Markup.

(** What is on screen in a state. *)
Definition view (w : World) : Node :=
  render (st_formData w) (st_errors w) (st_isSubmitting w).

(** ** Reading the tree *)

(** An element and the elements below it, in document order. *)
Fixpoint elements (n : Node) : list Node :=
  match n with
  | Element _ _ children => n :: flat_map elements children
  | Text _ | Undefined => []
  end.

(** The text below a node, in document order. *)
Fixpoint textContent (n : Node) : jsstring :=
  match n with
  | Element _ _ children => flat_map textContent children
  | Text s => s
  | Undefined => []
  end.

Definition tag_of (n : Node) : string :=
  match n with Element tag _ _ => tag | Text _ | Undefined => EmptyString end.

Definition attrs_of (n : Node) : list Attr :=
  match n with Element _ attrs _ => attrs | Text _ | Undefined => [] end.

(** The attribute a later occurrence of which wins, as in JSX. *)
Definition attr {A : Type} (pick : Attr → option A) (n : Node) : option A :=
  last (omap pick (attrs_of n)).

Definition id_of (n : Node) : option jsstring :=
  attr (λ a, match a with id_ v => Some v | _ => None end) n.

Definition type_of (n : Node) : option jsstring :=
  attr (λ a, match a with type_ v => Some v | _ => None end) n.

Definition value_of (n : Node) : option jsstring :=
  attr (λ a, match a with value v => Some v | _ => None end) n.

Definition className_of (n : Node) : option jsstring :=
  attr (λ a, match a with className v => Some v | _ => None end) n.

Definition onChange_of (n : Node) : option Handler :=
  attr (λ a, match a with onChange h => Some h | _ => None end) n.

Definition onSubmit_of (n : Node) : option Handler :=
  attr (λ a, match a with onSubmit h => Some h | _ => None end) n.

(** A missing [disabled] attribute means enabled. *)
Definition is_disabled (n : Node) : bool :=
  default false (attr (λ a, match a with disabled b => Some b | _ => None end) n).

Definition is_text_control (n : Node) : bool :=
  String.eqb (tag_of n) "input" || String.eqb (tag_of n) "textarea".

Definition is_button (n : Node) : bool := String.eqb (tag_of n) "button".

(** The text controls of a tree, in document order. *)
Definition text_controls (tree : Node) : list Node :=
  List.filter is_text_control (elements tree).

(** The buttons of a tree, in document order. *)
Definition buttons (tree : Node) : list Node :=
  List.filter is_button (elements tree).

(** The first text control with that [id]. *)
Definition find_control (target : jsstring) (tree : Node) : option Node :=
  head (List.filter (λ n, bool_decide (id_of n = Some target)) (text_controls tree)).

(** [document.forms]. *)
Definition forms (tree : Node) : list Node :=
  List.filter (λ n, String.eqb (tag_of n) "form") (elements tree).

(** A form can be submitted when it holds a submit button that is not
    disabled. *)
Definition can_submit (form : Node) : bool :=
  existsb (λ n, is_button n && bool_decide (type_of n = Some (lit "submit"))
                && negb (is_disabled n))
          (elements form).

(** The error paragraphs on screen: the text ([textContent] without the
    sign) of every [p] in red, in document order. *)
Definition shown_errors (tree : Node) : list jsstring :=
  omap (λ n, match n with
             | Element "p" [className c] [_; Text msg] =>
                 if bool_decide (c = lit "mt-2 text-sm text-red-600 flex items-center")
                 then Some msg else None
             | _ => None
             end)
       (elements tree).

(** The key a control is rendered for: its [id]. *)
Definition field_id (field : Field) : jsstring :=
  match field with
  | K_postTitle => lit "postTitle"
  | K_postContent => lit "postContent"
  | K_comment => lit "comment"
  end.

(** ** Events on the markup *)

Inductive DomEvent :=
  | Input (target : jsstring) (text : jsstring)  (* typing into the control with that id *)
  | Submit (form : nat).                         (* submitting the n-th form *)

(** Calling what the attribute holds; [text] is [e.target.value]. *)
Definition call (h : Handler) (text : jsstring) (w : World) : World :=
  match h with
  | call_handleInputChange field => exec (handleInputChange (st_errors w) field text) w
  | ref_handleCreatePost => exec (handleCreatePost (st_formData w)) w
  | ref_handleAddComment => exec (handleAddComment (st_formData w)) w
  end.

(** What the browser does with an event on the rendered tree: a disabled
    control takes no input, a form without an enabled submit button is not
    submitted, an element without the handler does nothing. *)
Definition deliver (d : DomEvent) (w : World) : option World :=
  match d with
  | Input target text =>
      match find_control target (view w) with
      | Some n =>
          if is_disabled n then None
          else match onChange_of n with
               | Some h => Some (call h text w)
               | None => None
               end
      | None => None
      end
  | Submit i =>
      match forms (view w) !! i with
      | Some f =>
          if can_submit f
          then match onSubmit_of f with
               | Some h => Some (call h [] w)
               | None => None
               end
          else None
      | None => None
      end
  end.

(** ** Vocabulary for the properties of whole runs *)

(** The control rendered for a field. *)
Definition control (field : Field) (w : World) : Node :=
  match field with
  | K_postTitle => title_input (st_formData w) (st_errors w) (st_isSubmitting w)
  | K_postContent => content_textarea (st_formData w) (st_errors w) (st_isSubmitting w)
  | K_comment => comment_textarea (st_formData w) (st_errors w) (st_isSubmitting w)
  end.

(** What a control displays for a field, if the field has a control. *)
Definition displayed (field : Field) (w : World) : option jsstring :=
  find_control (field_id field) (view w) ≫= value_of.

(** The [formData] a pending callback closed over. *)
Definition captured (cb : Callback) : FormData :=
  match cb with CreatePostDone d | AddCommentDone d => d end.

(** The fields whose validation came before a callback was scheduled. *)
Definition validated_for (cb : Callback) : list Field :=
  match cb with
  | CreatePostDone _ => [K_postTitle; K_postContent]
  | AddCommentDone _ => [K_comment]
  end.

(** The entry a callback logs when it runs at time [now]. *)
Definition entry_of (cb : Callback) (now : N) : LogEntry :=
  match cb with
  | CreatePostDone d => CreatingPost (postTitle d) (postContent d) now
  | AddCommentDone d => AddingComment (comment d) now
  end.

(** A pending completion carries values that passed validation and is due
    no earlier than 500 ms after mount. *)
Definition timer_ok (t : Timer) : Prop :=
  (∀ k, k ∈ validated_for (callback t) → ¬ blank (get (captured (callback t)) k))
  ∧ 500 ≤ due t.

(** A log entry carries no blank value and is stamped no earlier than
    500 ms after mount. *)
Definition entry_ok (e : LogEntry) : Prop :=
  match e with
  | CreatingPost title content timestamp =>
      ¬ blank title ∧ ¬ blank content ∧ 500 ≤ timestamp
  | AddingComment text timestamp => ¬ blank text ∧ 500 ≤ timestamp
  end.

(** A submit event whose validation passes in the state it arrives in. *)
Definition accepts (e : Event) (w : World) : bool :=
  match e with
  | SubmitPost => (on_validate (Some [K_postTitle; K_postContent]) w).1
  | SubmitComment => (on_validate (Some [K_comment]) w).1
  | Change _ _ | Elapse _ | TimerFires _ => false
  end.

(** The number of accepted submits along a run of directly invoked handlers. *)
Fixpoint accepted (es : list Event) (w : World) : nat :=
  match es with
  | [] => 0
  | e :: es' =>
      match invoke e w with
      | Some w' => ((if accepts e w then 1 else 0) + accepted es' w')%nat
      | None => 0
      end
  end.

(** Through the form: nothing pending and the flag down, or one completion
    pending that closed over the values still on screen and is due within
    500 ms. *)
Definition in_flight_or_idle (w : World) : Prop :=
  (st_timers w = [] ∧ st_isSubmitting w = false)
  ∨ (∃ t, st_timers w = [t] ∧ st_isSubmitting w = true
          ∧ captured (callback t) = st_formData w
          ∧ due t ≤ st_clock w + 500).

(** A state with a message on the title and a comment typed. *)
Definition title_missing : World :=
  mkWorld (mkFormData [] (lit "World") (lit "Nice post!"))
          {[ K_postTitle := Some (required_message K_postTitle) ]} false [] [] 0.

(** * Properties *)

(** ** Strings *)

Lemma trimStart_nil (s : jsstring) :
  trimStart s = [] ↔ Forall (λ c, is_white c = true) s.
Proof.
  induction s as [|c s IH]; simpl.
  - split; [constructor | done].
  - destruct (is_white c) eqn:Hc.
    + rewrite IH. split; [by constructor | by inversion 1].
    + split; [done | inversion 1; congruence].
Qed.

Lemma trimStart_head (s : jsstring) c r :
  trimStart s = c :: r → is_white c = false.
Proof.
  induction s as [|d s IH]; simpl; [done |].
  destruct (is_white d) eqn:Hd; [done |]. by intros [= <- _].
Qed.

(** [trim] leaves nothing exactly when every code unit is white space. *)
Lemma blank_whitespace_only (s : jsstring) :
  blank s ↔ Forall (λ c, is_white c = true) s.
Proof.
  unfold blank, trim, trimEnd. rewrite <- trimStart_nil.
  destruct (trimStart s) as [|c r] eqn:Hs; [done |].
  split; [| done]. intros Hr. exfalso.
  apply (f_equal reverse) in Hr. rewrite reverse_involutive in Hr.
  change (reverse []) with (@nil N) in Hr.
  apply trimStart_nil in Hr.
  apply trimStart_head in Hs.
  rewrite Forall_forall in Hr.
  specialize (Hr c). rewrite Hr in Hs; [done |].
  rewrite elem_of_reverse. by left.
Qed.

Lemma blank_test (s : jsstring) :
  negb (truthy (trim s)) = true ↔ blank s.
Proof. unfold blank. by destruct (trim s). Qed.

Example trim_keeps_inner_space :
  trim (lit "  Hello world  ") = lit "Hello world".
Proof. reflexivity. Qed.

Example trim_tab_newline_nbsp : trim [9; 10; 160; 65279; 13] = [].
Proof. reflexivity. Qed.

Example zero_width_space_is_not_white : trim [8203] = [8203].
Proof. reflexivity. Qed.

Lemma required_message_truthy k : truthy (required_message k) = true.
Proof. by destruct k. Qed.

(** ** validateForm *)

Lemma check_field_eq fd (acc : FormErrors) k :
  check_field fd acc k =
    if decide (blank (get fd k)) then <[k := Some (required_message k)]> acc else acc.
Proof.
  unfold check_field. case_decide as Hb.
  - apply blank_test in Hb. rewrite Hb. by destruct k.
  - destruct (negb _) eqn:E; [| done]. by apply blank_test in E.
Qed.

(** The entries of [newErrors] after the [forEach]. *)
Lemma newErrors_lookup fd (fields : list Field) (acc : FormErrors) k :
  foldl (check_field fd) acc fields !! k =
    if decide (k ∈ fields ∧ blank (get fd k))
    then Some (Some (required_message k)) else acc !! k.
Proof.
  revert acc. induction fields as [|f fields IH]; intros acc; cbn [foldl].
  - rewrite decide_False; [done |]. intros [H _]. by apply elem_of_nil in H.
  - rewrite IH, check_field_eq.
    destruct (decide (k ∈ fields ∧ blank (get fd k))) as [[Hin Hb]|Hn].
    { rewrite decide_True; [done |]. split; [by right | done]. }
    destruct (decide (blank (get fd f))) as [Hf|Hf].
    + destruct (decide (k = f)) as [->|Hne].
      * rewrite lookup_insert_eq, decide_True; [done |]. split; [by left | done].
      * rewrite lookup_insert_ne by done. rewrite decide_False; [done |].
        intros [[?|?]%elem_of_cons ?]; [done | by apply Hn].
    + rewrite decide_False; [done |].
      intros [[->|?]%elem_of_cons ?]; [done | by apply Hn].
Qed.

Lemma newErrors_empty fd (fields : list Field) :
  foldl (check_field fd) ∅ fields = ∅ ↔ ∀ k, k ∈ fields → ¬ blank (get fd k).
Proof.
  split.
  - intros He k Hin Hb.
    assert (foldl (check_field fd) ∅ fields !! k = Some (Some (required_message k))) as Hl.
    { rewrite newErrors_lookup. by rewrite decide_True. }
    rewrite He, lookup_empty in Hl. done.
  - intros H. apply map_eq. intros k. rewrite newErrors_lookup, lookup_empty.
    case_decide as Hc; [| done]. destruct Hc as [Hin Hb]. by destruct (H k Hin).
Qed.

Lemma validateForm_eval fd fs w :
  eval (validateForm fd fs) w =
    bool_decide (foldl (check_field fd) ∅ (targets fs) = ∅).
Proof.
  unfold eval, validateForm, targets. simpl.
  apply bool_decide_ext. apply map_size_empty_iff.
Qed.

Lemma validateForm_exec fd fs w :
  exec (validateForm fd fs) w =
    mkWorld (st_formData w)
            (spread (st_errors w) (foldl (check_field fd) ∅ (targets fs)))
            (st_isSubmitting w) (st_timers w) (st_console w) (st_clock w).
Proof. reflexivity. Qed.

Lemma spread_empty (prev : FormErrors) : spread prev ∅ = prev.
Proof. unfold spread. apply (left_id_L ∅ (∪)). Qed.

Lemma spread_lookup (prev new : FormErrors) k :
  spread prev new !! k =
    match new !! k with Some v => Some v | None => prev !! k end.
Proof.
  unfold spread. rewrite lookup_union. by destruct (new !! k), (prev !! k).
Qed.

(** The error mapping after a validation pass, entry by entry. *)
Lemma validateForm_errors fd fs w k :
  st_errors (exec (validateForm fd fs) w) !! k =
    if decide (k ∈ targets fs ∧ blank (get fd k))
    then Some (Some (required_message k)) else st_errors w !! k.
Proof.
  rewrite validateForm_exec. simpl. rewrite spread_lookup, newErrors_lookup, lookup_empty.
  by case_decide.
Qed.

Lemma validateForm_true fd fs w :
  eval (validateForm fd fs) w = true ↔
  ∀ k, k ∈ targets fs → ¬ blank (get fd k).
Proof.
  rewrite validateForm_eval, bool_decide_eq_true. apply newErrors_empty.
Qed.

Lemma validateForm_valid_exec fd fs w :
  eval (validateForm fd fs) w = true → exec (validateForm fd fs) w = w.
Proof.
  rewrite validateForm_eval, bool_decide_eq_true. intros He.
  rewrite validateForm_exec, He, spread_empty. by destruct w.
Qed.

(** ** The handlers, unfolded *)

Ltac unfold_monad := unfold exec, eval, mbind, M_bind, mret, M_ret.

Lemma on_change_eq k v w :
  on_change k v w =
    mkWorld (set k v (st_formData w))
            (if has_error w k then <[k := None]> (st_errors w) else st_errors w)
            (st_isSubmitting w) (st_timers w) (st_console w) (st_clock w).
Proof.
  unfold on_change, handleInputChange, has_error, exec. simpl.
  by destruct (truthy_opt (read (st_errors w) k)).
Qed.

Lemma handleCreatePost_eq fd w :
  exec (handleCreatePost fd) w =
    let w1 := exec (validateForm fd (Some [K_postTitle; K_postContent])) w in
    if eval (validateForm fd (Some [K_postTitle; K_postContent])) w
    then mkWorld (st_formData w1) (st_errors w1) true
                 (st_timers w1 ++ [mkTimer (st_clock w1 + 500) (CreatePostDone fd)])
                 (st_console w1) (st_clock w1)
    else w1.
Proof.
  unfold handleCreatePost. unfold_monad. simpl.
  by destruct (bool_decide _).
Qed.

Lemma handleAddComment_eq fd w :
  exec (handleAddComment fd) w =
    let w1 := exec (validateForm fd (Some [K_comment])) w in
    if eval (validateForm fd (Some [K_comment])) w
    then mkWorld (st_formData w1) (st_errors w1) true
                 (st_timers w1 ++ [mkTimer (st_clock w1 + 500) (AddCommentDone fd)])
                 (st_console w1) (st_clock w1)
    else w1.
Proof.
  unfold handleAddComment. unfold_monad. simpl.
  by destruct (bool_decide _).
Qed.

(** Both submit handlers at once: validation of the sub-form's fields, then
    either nothing more or the flag and one timer. *)
Lemma submit_eq f w :
  submit f w =
    let w1 := (on_validate (Some (required_fields f)) w).2 in
    if (on_validate (Some (required_fields f)) w).1
    then mkWorld (st_formData w1) (st_errors w1) true
           (st_timers w1 ++
              [mkTimer (st_clock w1 + 500)
                 (match f with
                  | PostForm => CreatePostDone (st_formData w)
                  | CommentForm => AddCommentDone (st_formData w)
                  end)])
           (st_console w1) (st_clock w1)
    else w1.
Proof.
  destruct f; unfold submit, on_submit_post, on_submit_comment.
  - apply handleCreatePost_eq.
  - apply handleAddComment_eq.
Qed.

Lemma submit_frame f w :
  st_formData (submit f w) = st_formData w ∧
  st_console (submit f w) = st_console w ∧
  st_clock (submit f w) = st_clock w ∧
  ∀ k, st_errors (submit f w) !! k =
         if decide (k ∈ required_fields f ∧ blank (get (st_formData w) k))
         then Some (Some (required_message k)) else st_errors w !! k.
Proof.
  rewrite submit_eq. unfold on_validate. cbv zeta.
  change ((validateForm ?fd ?fs w).1) with (eval (validateForm fd fs) w).
  change ((validateForm ?fd ?fs w).2) with (exec (validateForm fd fs) w).
  destruct (eval _ w); simpl; repeat split; try done;
    intros k; apply (validateForm_errors _ (Some (required_fields f))).
Qed.

Lemma submit_valid f w :
  (∀ k, k ∈ required_fields f → ¬ blank (get (st_formData w) k)) →
  submit f w =
    mkWorld (st_formData w) (st_errors w) true
      (st_timers w ++
         [mkTimer (st_clock w + 500)
            (match f with
             | PostForm => CreatePostDone (st_formData w)
             | CommentForm => AddCommentDone (st_formData w)
             end)])
      (st_console w) (st_clock w).
Proof.
  intros Hv. rewrite submit_eq. unfold on_validate. cbv zeta.
  change ((validateForm ?fd ?fs w).1) with (eval (validateForm fd fs) w).
  change ((validateForm ?fd ?fs w).2) with (exec (validateForm fd fs) w).
  assert (eval (validateForm (st_formData w) (Some (required_fields f))) w = true) as He
    by by apply validateForm_true.
  by rewrite He, (validateForm_valid_exec _ _ _ He).
Qed.

Lemma submit_invalid f w k :
  k ∈ required_fields f → blank (get (st_formData w) k) →
  submit f w =
    mkWorld (st_formData w) (st_errors (submit f w)) (st_isSubmitting w)
            (st_timers w) (st_console w) (st_clock w).
Proof.
  intros Hin Hb. rewrite submit_eq. unfold on_validate. cbv zeta.
  change ((validateForm ?fd ?fs w).1) with (eval (validateForm fd fs) w).
  change ((validateForm ?fd ?fs w).2) with (exec (validateForm fd fs) w).
  destruct (eval _ w) eqn:He.
  - pose proof (proj1 (validateForm_true _ _ _) He k Hin) as Hk. by destruct Hk.
  - by rewrite validateForm_exec.
Qed.

(** ** Validation engine *)

Lemma on_validate_true (w : World) fs :
  (on_validate fs w).1 = true ↔
  ∀ k, k ∈ targets fs → ¬ blank (get (st_formData w) k).
Proof. exact (validateForm_true (st_formData w) fs w). Qed.

Lemma on_validate_valid (w : World) fs :
  (on_validate fs w).1 = true → (on_validate fs w).2 = w.
Proof. exact (validateForm_valid_exec (st_formData w) fs w). Qed.

(** C6. For every state and every target subset, validateForm returns
    true if and only if every field of the target subset has a non-empty
    trimmed value, that is, if and only if the pass recorded no new error
    for a targeted field. *)
Theorem validateForm_true_iff (w : World) (fieldsToValidate : option (list Field)) :
  ((on_validate fieldsToValidate w).1 = true ↔
     ∀ k, k ∈ targets fieldsToValidate → trim (get (st_formData w) k) ≠ [])
  ∧ ((on_validate fieldsToValidate w).1 = true ↔
     ∀ k, k ∈ targets fieldsToValidate →
          foldl (check_field (st_formData w)) ∅ (targets fieldsToValidate) !! k = None).
Proof.
  unfold on_validate.
  change ((validateForm ?fd ?fs w).1) with (eval (validateForm fd fs) w).
  split; [apply validateForm_true |].
  rewrite validateForm_true. split; intros H k Hin.
  - rewrite newErrors_lookup, lookup_empty. rewrite decide_False; [done |].
    intros [_ Hb]. by apply (H k).
  - intros Hb. specialize (H k Hin). rewrite newErrors_lookup in H.
    by rewrite decide_True in H.
Qed.

Lemma validateForm_other_fields (w : World) fs k :
  k ∉ targets fs → st_errors (on_validate fs w).2 !! k = st_errors w !! k.
Proof.
  intros Hk. unfold on_validate.
  change ((validateForm ?fd ?fs w).2) with (exec (validateForm fd fs) w).
  rewrite validateForm_errors, decide_False; [done | tauto].
Qed.

Lemma validateForm_never_removes (w : World) fs k :
  is_Some (st_errors w !! k) → is_Some (st_errors (on_validate fs w).2 !! k).
Proof.
  intros Hk. unfold on_validate.
  change ((validateForm ?fd ?fs w).2) with (exec (validateForm fd fs) w).
  rewrite validateForm_errors. by case_decide.
Qed.

(** C7. For every state (whose recorded messages are those validateForm
    writes) and every target subset, validateForm merges into the error
    mapping: every error present before the call is present with the same
    message after it, no key is removed, and the entries of fields outside
    the target subset are untouched; validating only the comment leaves
    the entries of postTitle and postContent as they were. *)
Theorem validateForm_merges (w : World) (fieldsToValidate : option (list Field)) :
  errors_recorded w →
  let w' := (on_validate fieldsToValidate w).2 in
  (∀ k msg, st_errors w !! k = Some (Some msg) → st_errors w' !! k = Some (Some msg))
  ∧ (∀ k, is_Some (st_errors w !! k) → is_Some (st_errors w' !! k))
  ∧ (∀ k, k ∉ targets fieldsToValidate → st_errors w' !! k = st_errors w !! k)
  ∧ (∀ k, k ≠ K_comment →
       st_errors (on_validate (Some [K_comment]) w).2 !! k = st_errors w !! k).
Proof.
  intros Hrec w'. subst w'. repeat split.
  - intros k msg Hk. unfold on_validate.
    change ((validateForm ?fd ?fs w).2) with (exec (validateForm fd fs) w).
    rewrite validateForm_errors. case_decide; [| done].
    by rewrite (Hrec k msg Hk).
  - intros k. apply validateForm_never_removes.
  - intros k. apply validateForm_other_fields.
  - intros k Hk. apply validateForm_other_fields. simpl.
    by intros ->%list_elem_of_singleton.
Qed.

(** ** Field input handler *)

(** C8. For every state in which a field has a recorded error, invoking
    handleInputChange on that field with any new value, empty and
    whitespace-only ones included, clears that field's error entry. *)
Theorem handleInputChange_clears (w : World) (field : Field) (value : jsstring) :
  has_error w field = true →
  st_errors (on_change field value w) !! field = Some None
  ∧ has_error (on_change field value w) field = false.
Proof.
  intros He. rewrite on_change_eq. unfold has_error at 2, read. simpl.
  rewrite He. by rewrite lookup_insert_eq.
Qed.

(** C9. For every state, field and new value, handleInputChange overwrites
    that field's value and at most clears that field's error entry:
    isSubmitting, the other fields' values and the other fields' error
    entries stay as they were (and so do the timers and the console). *)
Theorem handleInputChange_frame (w : World) (field : Field) (value : jsstring) :
  let w' := on_change field value w in
  get (st_formData w') field = value
  ∧ (∀ k, k ≠ field → get (st_formData w') k = get (st_formData w) k)
  ∧ (st_errors w' !! field = st_errors w !! field ∨ st_errors w' !! field = Some None)
  ∧ (∀ k, k ≠ field → st_errors w' !! k = st_errors w !! k)
  ∧ st_isSubmitting w' = st_isSubmitting w
  ∧ st_timers w' = st_timers w
  ∧ st_console w' = st_console w.
Proof.
  cbv zeta. rewrite on_change_eq. simpl. repeat split.
  - by destruct field.
  - intros k Hk. by destruct field, k.
  - destruct (has_error w field); [right; apply lookup_insert_eq | by left].
  - intros k Hk. destruct (has_error w field); [| done].
    by rewrite lookup_insert_ne.
Qed.

(** ** Submission *)

(** C4. For every state in which a required field of a sub-form is empty
    or whitespace-only, that sub-form's submit handler records exactly the
    fixed message for that field, leaves the entry of every field that
    is not both required and blank as it was, does not set isSubmitting,
    emits nothing and schedules nothing. *)
Theorem submit_blank_rejected (f : SubForm) (w : World) (field : Field) :
  field ∈ required_fields f →
  blank (get (st_formData w) field) →
  let w' := submit f w in
  st_errors w' !! field = Some (Some (required_message field))
  ∧ (∀ k, ¬ (k ∈ required_fields f ∧ blank (get (st_formData w) k)) →
          st_errors w' !! k = st_errors w !! k)
  ∧ st_isSubmitting w' = st_isSubmitting w
  ∧ st_console w' = st_console w
  ∧ st_timers w' = st_timers w
  ∧ st_formData w' = st_formData w.
Proof.
  intros Hin Hb w'. subst w'.
  destruct (submit_frame f w) as (_ & _ & _ & Herr).
  split; [| split].
  - rewrite Herr. by rewrite decide_True.
  - intros k Hk. rewrite Herr. by rewrite decide_False.
  - by rewrite (submit_invalid f w field Hin Hb).
Qed.

(** The completion scheduled by a successful submit is the last pending
    timer; it cannot run before 500 ms have passed and runs after. *)
Lemma submit_then_fire f w dt :
  (∀ k, k ∈ required_fields f → ¬ blank (get (st_formData w) k)) →
  fire (length (st_timers w)) (elapse dt (submit f w)) =
    if 500 <=? dt
    then Some (exec (run_callback
                       (match f with
                        | PostForm => CreatePostDone (st_formData w)
                        | CommentForm => AddCommentDone (st_formData w)
                        end))
                 (mkWorld (st_formData w) (st_errors w) true (st_timers w)
                          (st_console w) (st_clock w + dt)))
    else None.
Proof.
  intros Hv. rewrite (submit_valid f w Hv). unfold fire, elapse. simpl.
  rewrite list_lookup_middle by done. simpl.
  rewrite delete_middle, app_nil_r.
  destruct (N.leb_spec 500 dt) as [Hle|Hlt].
  - by rewrite (proj2 (N.leb_le _ _)) by lia.
  - by rewrite (proj2 (N.leb_gt _ _)) by lia.
Qed.

(** C2. For every state whose postTitle and postContent are non-empty
    after trimming, handleCreatePost sets isSubmitting and schedules one
    completion 500 ms ahead; it cannot run earlier, and once it has run
    exactly one createPost event with that title, that content and the
    time of completion has been emitted, postTitle and postContent are
    empty, comment is unchanged and isSubmitting is false. *)
Theorem handleCreatePost_success (w : World) (dt : N) :
  ¬ blank (postTitle (st_formData w)) →
  ¬ blank (postContent (st_formData w)) →
  let w1 := on_submit_post w in
  let pending := length (st_timers w) in
  st_isSubmitting w1 = true
  ∧ st_timers w1 =
      st_timers w ++ [mkTimer (st_clock w + 500) (CreatePostDone (st_formData w))]
  ∧ st_console w1 = st_console w
  ∧ (dt < 500 → fire pending (elapse dt w1) = None)
  ∧ (500 ≤ dt →
     ∃ w2, fire pending (elapse dt w1) = Some w2
       ∧ st_console w2 =
           st_console w ++ [CreatingPost (postTitle (st_formData w))
                                         (postContent (st_formData w))
                                         (st_clock w + dt)]
       ∧ postTitle (st_formData w2) = []
       ∧ postContent (st_formData w2) = []
       ∧ comment (st_formData w2) = comment (st_formData w)
       ∧ st_isSubmitting w2 = false
       ∧ st_timers w2 = st_timers w
       ∧ st_errors w2 = st_errors w).
Proof.
  intros Ht Hc w1 pending. subst w1 pending.
  assert (∀ k, k ∈ required_fields PostForm → ¬ blank (get (st_formData w) k)) as Hv.
  { intros k [->|[->|[]%elem_of_nil]%elem_of_cons]%elem_of_cons; done. }
  pose proof (submit_then_fire PostForm w dt Hv) as Hfire.
  pose proof (submit_valid PostForm w Hv) as Hsub.
  change (submit PostForm) with on_submit_post in *.
  rewrite Hfire, Hsub. simpl. repeat split.
  - intros Hlt. by rewrite (proj2 (N.leb_gt _ _)) by lia.
  - intros Hle. rewrite (proj2 (N.leb_le _ _)) by lia. eexists. by repeat split.
Qed.

(** C3. For every state whose comment is non-empty after trimming,
    handleAddComment sets isSubmitting and schedules one completion with
    the same 500 ms delay; once it has run exactly one addComment event
    with the comment text and the time of completion has been emitted,
    comment is empty, postTitle and postContent are unchanged and
    isSubmitting is false. *)
Theorem handleAddComment_success (w : World) (dt : N) :
  ¬ blank (comment (st_formData w)) →
  let w1 := on_submit_comment w in
  let pending := length (st_timers w) in
  st_isSubmitting w1 = true
  ∧ st_timers w1 =
      st_timers w ++ [mkTimer (st_clock w + 500) (AddCommentDone (st_formData w))]
  ∧ st_console w1 = st_console w
  ∧ (dt < 500 → fire pending (elapse dt w1) = None)
  ∧ (500 ≤ dt →
     ∃ w2, fire pending (elapse dt w1) = Some w2
       ∧ st_console w2 =
           st_console w ++ [AddingComment (comment (st_formData w)) (st_clock w + dt)]
       ∧ comment (st_formData w2) = []
       ∧ postTitle (st_formData w2) = postTitle (st_formData w)
       ∧ postContent (st_formData w2) = postContent (st_formData w)
       ∧ st_isSubmitting w2 = false
       ∧ st_timers w2 = st_timers w
       ∧ st_errors w2 = st_errors w).
Proof.
  intros Hc w1 pending. subst w1 pending.
  assert (∀ k, k ∈ required_fields CommentForm → ¬ blank (get (st_formData w) k)) as Hv.
  { intros k [->|[]%elem_of_nil]%elem_of_cons; done. }
  pose proof (submit_then_fire CommentForm w dt Hv) as Hfire.
  pose proof (submit_valid CommentForm w Hv) as Hsub.
  change (submit CommentForm) with on_submit_comment in *.
  rewrite Hfire, Hsub. simpl. repeat split.
  - intros Hlt. by rewrite (proj2 (N.leb_gt _ _)) by lia.
  - intros Hle. rewrite (proj2 (N.leb_le _ _)) by lia. eexists. by repeat split.
Qed.

(** ** Runs *)

Lemma run_invariant (step : Event → World → option World) (P : World → Prop) :
  (∀ e w w', P w → step e w = Some w' → P w') →
  ∀ es w w', P w → run step es w = Some w' → P w'.
Proof.
  intros Hstep es. induction es as [|e es IH]; intros w w' Hw; simpl.
  - by intros [= <-].
  - destruct (step e w) as [w1|] eqn:E; [| done]. eauto.
Qed.

Lemma dispatch_invoke e w w' : dispatch e w = Some w' → invoke e w = Some w'.
Proof. destruct e; simpl; by destruct (st_isSubmitting w). Qed.

Lemma ui_reachable_reachable w : ui_reachable w → reachable w.
Proof.
  intros [es Hes]. exists es. revert Hes. generalize initial.
  induction es as [|e es IH]; intros w0; simpl; [done |].
  destruct (dispatch e w0) as [w1|] eqn:E; [| done].
  rewrite (dispatch_invoke _ _ _ E). apply IH.
Qed.

Lemma run_callback_eq cb w :
  exec (run_callback cb) w =
    mkWorld
      (match cb with
       | CreatePostDone _ => mkFormData [] [] (comment (st_formData w))
       | AddCommentDone _ =>
           mkFormData (postTitle (st_formData w)) (postContent (st_formData w)) []
       end)
      (st_errors w) false (st_timers w)
      (st_console w ++
         [match cb with
          | CreatePostDone fd => CreatingPost (postTitle fd) (postContent fd) (st_clock w)
          | AddCommentDone fd => AddingComment (comment fd) (st_clock w)
          end])
      (st_clock w).
Proof. by destruct cb. Qed.

Lemma fire_frame i w w' :
  fire i w = Some w' →
  st_errors w' = st_errors w
  ∧ (∀ k, get (st_formData w') k = [] ∨ get (st_formData w') k = get (st_formData w) k)
  ∧ st_isSubmitting w' = false
  ∧ st_timers w' = delete i (st_timers w)
  ∧ is_Some (st_timers w !! i).
Proof.
  unfold fire. destruct (st_timers w !! i) as [t|]; [| done].
  destruct (due t <=? st_clock w); [| done].
  intros [= <-]. rewrite run_callback_eq. simpl. repeat split; [| by eexists].
  intros k. destruct (callback t), k; simpl; auto.
Qed.

Lemma has_error_change w field v k :
  has_error (on_change field v w) k =
    if decide (k = field) then false else has_error w k.
Proof.
  rewrite on_change_eq. unfold has_error at 1, read. simpl.
  destruct (has_error w field) eqn:E.
  - case_decide as Hk; [subst; by rewrite lookup_insert_eq |].
    by rewrite lookup_insert_ne.
  - case_decide as Hk; [by subst | done].
Qed.

Lemma has_error_submit f w k :
  has_error (submit f w) k =
    if decide (k ∈ required_fields f ∧ blank (get (st_formData w) k))
    then true else has_error w k.
Proof.
  destruct (submit_frame f w) as (_ & _ & _ & Herr).
  unfold has_error at 1, read. rewrite Herr.
  case_decide; [apply required_message_truthy | done].
Qed.

(** ** Single flight through the rendered form *)

Lemma on_validate_frame fs w :
  st_timers (on_validate fs w).2 = st_timers w
  ∧ st_isSubmitting (on_validate fs w).2 = st_isSubmitting w.
Proof. done. Qed.

Lemma single_flight_initial : single_flight initial.
Proof. by left. Qed.

Lemma dispatch_single_flight e w w' :
  single_flight w → dispatch e w = Some w' → single_flight w'.
Proof.
  intros Hw. destruct e as [field v| | |dt|i]; simpl.
  - destruct (st_isSubmitting w) eqn:Hs; [done |]. intros [= <-].
    rewrite on_change_eq. destruct Hw as [[Ht _]|(t & _ & ?)]; [| congruence].
    by left.
  - destruct (st_isSubmitting w) eqn:Hs; [done |]. intros [= <-].
    destruct Hw as [[Ht _]|(t & _ & ?)]; [| congruence].
    change on_submit_post with (submit PostForm). rewrite submit_eq. cbv zeta.
    destruct ((on_validate _ w).1) eqn:Hv.
    + right. rewrite (on_validate_valid _ _ Hv), Ht. by eexists.
    + left. by destruct (on_validate_frame (Some (required_fields PostForm)) w)
        as [-> ->].
  - destruct (st_isSubmitting w) eqn:Hs; [done |]. intros [= <-].
    destruct Hw as [[Ht _]|(t & _ & ?)]; [| congruence].
    change on_submit_comment with (submit CommentForm). rewrite submit_eq. cbv zeta.
    destruct ((on_validate _ w).1) eqn:Hv.
    + right. rewrite (on_validate_valid _ _ Hv), Ht. by eexists.
    + left. by destruct (on_validate_frame (Some (required_fields CommentForm)) w)
        as [-> ->].
  - intros [= <-]. exact Hw.
  - intros (_ & _ & Hs & Ht & [t Hi])%fire_frame. left. split; [| done].
    rewrite Ht. destruct Hw as [[Hnil _]|(t' & Hone & _)].
    + by rewrite Hnil in Hi.
    + rewrite Hone in *. by destruct i.
Qed.

(** C1, as the form delivers it.  Called directly the submit handlers have
    no guard of their own; through the rendered form a submit (or an edit)
    is not delivered while isSubmitting is true, so that in every state a
    user can reach at most one delayed completion is pending, and one is
    pending exactly while isSubmitting is true. *)
Theorem ui_single_flight (w : World) :
  ui_reachable w →
  (length (st_timers w) ≤ 1)%nat
  ∧ (st_isSubmitting w = true ↔ length (st_timers w) = 1%nat)
  ∧ (st_isSubmitting w = true →
       dispatch SubmitPost w = None ∧ dispatch SubmitComment w = None).
Proof.
  intros [es Hes].
  pose proof (run_invariant dispatch single_flight dispatch_single_flight
                es initial w single_flight_initial Hes) as Hw.
  split; [| split].
  - destruct Hw as [[-> _]|(t & -> & _)]; simpl; lia.
  - destruct Hw as [[-> ->]|(t & -> & ->)]; simpl; split; done.
  - intros Hs. simpl. by rewrite Hs.
Qed.

(** C1, as stated, fails: in a state reached through the form in which a
    post submission is in flight, calling either submit handler schedules
    a second completion next to the pending one. *)
Lemma handlers_have_no_reentrancy_guard :
  run dispatch typing_and_submitting initial = Some in_flight
  ∧ st_isSubmitting in_flight = true
  ∧ length (st_timers in_flight) = 1%nat
  ∧ length (st_timers (on_submit_post in_flight)) = 2%nat
  ∧ length (st_timers (on_submit_comment in_flight)) = 2%nat.
Proof. repeat split; vm_compute; reflexivity. Qed.

(** ** Invariants of the error mapping *)

Lemma invoke_errors_recorded e w w' :
  errors_recorded w → invoke e w = Some w' → errors_recorded w'.
Proof.
  intros Hw. destruct e as [field v| | |dt|i]; simpl.
  - intros [= <-] k msg. rewrite on_change_eq. simpl.
    destruct (has_error w field); [| apply Hw].
    destruct (decide (k = field)) as [->|Hk].
    + by rewrite lookup_insert_eq.
    + rewrite lookup_insert_ne by done. apply Hw.
  - intros [= <-] k msg.
    destruct (submit_frame PostForm w) as (_ & _ & _ & Herr).
    change on_submit_post with (submit PostForm). rewrite Herr.
    case_decide; [by intros [= <-] | apply Hw].
  - intros [= <-] k msg.
    destruct (submit_frame CommentForm w) as (_ & _ & _ & Herr).
    change on_submit_comment with (submit CommentForm). rewrite Herr.
    case_decide; [by intros [= <-] | apply Hw].
  - intros [= <-]. exact Hw.
  - intros (He & _)%fire_frame k msg. rewrite He. apply Hw.
Qed.

(** Every state the handlers can produce holds recorded messages only. *)
Lemma reachable_errors_recorded w : reachable w → errors_recorded w.
Proof.
  intros [es Hes].
  apply (run_invariant invoke errors_recorded invoke_errors_recorded es initial w);
    [| done].
  intros k msg. simpl. by rewrite lookup_empty.
Qed.

Lemma get_set field v d k :
  get (set field v d) k = if decide (k = field) then v else get d k.
Proof. by destruct field, k. Qed.

Lemma invoke_errors_on_blank e w w' :
  errors_on_blank w → invoke e w = Some w' → errors_on_blank w'.
Proof.
  intros Hw. destruct e as [field v| | |dt|i]; simpl.
  - intros [= <-] k. rewrite has_error_change.
    case_decide as Hk; [done |]. intros He.
    rewrite on_change_eq. simpl. rewrite get_set, decide_False by done. by apply Hw.
  - intros [= <-] k.
    change on_submit_post with (submit PostForm). rewrite has_error_submit.
    destruct (submit_frame PostForm w) as (-> & _).
    case_decide as Hk; [tauto | apply Hw].
  - intros [= <-] k.
    change on_submit_comment with (submit CommentForm). rewrite has_error_submit.
    destruct (submit_frame CommentForm w) as (-> & _).
    case_decide as Hk; [tauto | apply Hw].
  - intros [= <-]. exact Hw.
  - intros (He & Hd & _)%fire_frame k. unfold has_error. rewrite He.
    intros Hk. destruct (Hd k) as [->| ->]; [done | by apply Hw].
Qed.

(** Every state the handlers can produce shows errors on blank fields only:
    a field cannot become non-blank without the edit that clears its
    error. *)
Lemma reachable_errors_on_blank w : reachable w → errors_on_blank w.
Proof.
  intros [es Hes].
  apply (run_invariant invoke errors_on_blank invoke_errors_on_blank es initial w);
    [| done].
  by intros k.
Qed.

Lemma invoke_errors_track_history e w w' h :
  errors_on_blank w → errors_track_history w h →
  invoke e w = Some w' → errors_track_history w' (note e w h).
Proof.
  intros Hb Hw. destruct e as [field v| | |dt|i]; simpl.
  - intros [= <-] k. rewrite has_error_change. unfold note.
    destruct (decide (k = field)); simpl; [| apply Hw].
    split; [done | by intros [_ ?]].
  - intros [= <-] k.
    change on_submit_post with (submit PostForm). rewrite has_error_submit.
    unfold note. simpl validated_by. change [K_postTitle; K_postContent]
      with (required_fields PostForm).
    destruct (decide (k ∈ required_fields PostForm)) as [Hin|Hin].
    + destruct (decide (blank (get (st_formData w) k))) as [Hk|Hk].
      * rewrite decide_True by done. simpl. by split.
      * rewrite decide_False by tauto. simpl.
        split; [| by intros [? _]]. intros He. destruct Hk. by apply Hb.
    + rewrite decide_False by tauto. apply Hw.
  - intros [= <-] k.
    change on_submit_comment with (submit CommentForm). rewrite has_error_submit.
    unfold note. simpl validated_by. change [K_comment]
      with (required_fields CommentForm).
    destruct (decide (k ∈ required_fields CommentForm)) as [Hin|Hin].
    + destruct (decide (blank (get (st_formData w) k))) as [Hk|Hk].
      * rewrite decide_True by done. simpl. by split.
      * rewrite decide_False by tauto. simpl.
        split; [| by intros [? _]]. intros He. destruct Hk. by apply Hb.
    + rewrite decide_False by tauto. apply Hw.
  - intros [= <-] k. apply Hw.
  - intros (He & _)%fire_frame k. unfold has_error. rewrite He. apply Hw.
Qed.

Lemma run_noting_invariant es w h w' h' :
  errors_on_blank w → errors_track_history w h →
  run_noting es w h = Some (w', h') →
  errors_on_blank w' ∧ errors_track_history w' h'.
Proof.
  revert w h. induction es as [|e es IH]; intros w h Hb Hw; simpl.
  - by intros [= <- <-].
  - destruct (invoke e w) as [w1|] eqn:E; [| done].
    apply IH; [by eapply invoke_errors_on_blank | by eapply invoke_errors_track_history].
Qed.

(** The only event that removes a shown error is an edit of its field. *)
Lemma error_removed_by_edit_only e w w' k :
  invoke e w = Some w' → has_error w k = true →
  (has_error w' k = false ↔ ∃ v, e = Change k v).
Proof.
  intros Hstep He. destruct e as [field v| | |dt|i]; simpl in Hstep.
  - injection Hstep as <-. rewrite has_error_change.
    case_decide as Hk; [subst; split; eauto |].
    rewrite He. split; [done |]. intros [v' [= ]]. congruence.
  - injection Hstep as <-.
    change on_submit_post with (submit PostForm). rewrite has_error_submit, He.
    split; [by case_decide | by intros [? ?]].
  - injection Hstep as <-.
    change on_submit_comment with (submit CommentForm). rewrite has_error_submit, He.
    split; [by case_decide | by intros [? ?]].
  - injection Hstep as <-. unfold has_error in *. simpl. rewrite He.
    split; [done | by intros [? ?]].
  - apply fire_frame in Hstep as (Herr & _). unfold has_error in *.
    rewrite Herr, He. split; [done | by intros [? ?]].
Qed.

(** C5, as the code keeps it.  In every state a run of the handlers can
    reach, a field shows an error if and only if its latest validation
    found it empty after trimming and it has not been edited since; and an
    error that is shown disappears with the next event exactly when that
    event is an edit of its field, whatever the new value. *)
Theorem error_iff_found_empty_and_unedited
    (es : list Event) (w : World) (h : Field → History) :
  run_noting es initial no_history = Some (w, h) →
  (∀ k, has_error w k = true ↔
        last_validation (h k) = FoundEmpty ∧ edited_since (h k) = false)
  ∧ (∀ e w' k, invoke e w = Some w' → has_error w k = true →
        (has_error w' k = false ↔ ∃ v, e = Change k v)).
Proof.
  intros Hrun. split.
  - apply (run_noting_invariant es initial no_history w h); [| | done].
    + by intros k.
    + intros k. unfold has_error, no_history. simpl.
      split; [done | by intros [? _]].
  - intros e w' k. apply error_removed_by_edit_only.
Qed.

(** C5, as stated, fails: after the empty post form is submitted the title
    shows its error; typing a single space leaves the title empty after
    trimming, and its latest validation is still the one that found it
    empty, yet the error is gone. *)
Lemma edit_clears_error_of_empty_field :
  has_error rejected K_postTitle = true
  ∧ ∃ w h, run_noting submit_then_space initial no_history = Some (w, h)
      ∧ last_validation (h K_postTitle) = FoundEmpty
      ∧ blank (get (st_formData w) K_postTitle)
      ∧ has_error w K_postTitle = false.
Proof.
  split; [by vm_compute |].
  eexists _, _. split; [reflexivity |]. by vm_compute.
Qed.

(** ** Validation and the errors already recorded *)

Lemma on_validate_independent (fs : option (list Field)) (w1 w2 : World) :
  (∀ k, k ∈ targets fs → get (st_formData w1) k = get (st_formData w2) k) →
  (on_validate fs w1).1 = (on_validate fs w2).1.
Proof.
  intros Hsame.
  assert ((on_validate fs w1).1 = true ↔ (on_validate fs w2).1 = true) as Hiff.
  { rewrite !on_validate_true.
    split; intros H k Hin; [rewrite <- Hsame | rewrite Hsame]; auto. }
  destruct ((on_validate fs w1).1), ((on_validate fs w2).1); try done.
  - symmetry. by apply Hiff.
  - by apply Hiff.
Qed.

(** In a state the handlers can produce, a validation that succeeds finds
    no error on any field it looks at. *)
Lemma valid_has_no_error (w : World) (fs : option (list Field)) (k : Field) :
  reachable w → k ∈ targets fs → (on_validate fs w).1 = true →
  has_error w k = false.
Proof.
  intros Hr Hin Hv. destruct (has_error w k) eqn:He; [| done].
  destruct (proj1 (on_validate_true w fs) Hv k Hin).
  by apply reachable_errors_on_blank.
Qed.

(** C10, as the code keeps it.  For every target subset the result of
    validateForm is a function of the current values of the targeted
    fields only: two states that agree on them get the same answer
    whatever their error mappings hold.  validateForm never clears an
    entry: when it returns true the error mapping is what it was.  But in
    every state the handlers can produce, when validateForm returns true
    no targeted field carries an error, before the call or after it: an
    error sits on a blank field only, and a blank targeted field makes the
    result false. *)
Theorem validateForm_ignores_errors (fieldsToValidate : option (list Field)) :
  (∀ w1 w2,
     (∀ k, k ∈ targets fieldsToValidate →
           get (st_formData w1) k = get (st_formData w2) k) →
     (on_validate fieldsToValidate w1).1 = (on_validate fieldsToValidate w2).1)
  ∧ (∀ w, (on_validate fieldsToValidate w).1 = true →
          st_errors (on_validate fieldsToValidate w).2 = st_errors w)
  ∧ (∀ w k, reachable w → k ∈ targets fieldsToValidate →
            (on_validate fieldsToValidate w).1 = true →
            has_error w k = false
            ∧ has_error (on_validate fieldsToValidate w).2 k = false).
Proof.
  split; [| split].
  - apply on_validate_independent.
  - intros w Hv. by rewrite (on_validate_valid w _ Hv).
  - intros w k Hr Hin Hv.
    pose proof (valid_has_no_error w fieldsToValidate k Hr Hin Hv) as He.
    split; [done |]. by rewrite (on_validate_valid w _ Hv).
Qed.

(** C10, as stated, fails in its second half: validateForm does not return
    true while a targeted field carries a recorded error.  The state in
    which it would, a filled-in field that still carries its message, is
    reached by no run of the handlers from mount; and in every state that
    is reached, a true result means no targeted field has an error. *)
Lemma no_stale_error_when_valid :
  (∀ k, has_error (stale k) k = true
        ∧ (on_validate (Some [k]) (stale k)).1 = true
        ∧ ¬ reachable (stale k))
  ∧ (∀ w fs k, reachable w → k ∈ targets fs → (on_validate fs w).1 = true →
               has_error w k = false).
Proof.
  split.
  - intros k. split; [by destruct k |]. split; [by destruct k |].
    intros Hr.
    assert (has_error (stale k) k = false) as He.
    { apply (valid_has_no_error (stale k) (Some [k]) k Hr); [by left |].
      by destruct k. }
    by destruct k.
  - apply valid_has_no_error.
Qed.

(** ** The theorems at concrete states *)

(** A whole session through the form: both forms used one after the
    other, each completion logged once, all fields empty at the end. *)
Example session :
  run dispatch
    [Change K_postTitle (lit "Hello"); Change K_postContent (lit "World");
     Change K_comment (lit "Nice post!");
     SubmitPost; Elapse 500; TimerFires 0;
     SubmitComment; Elapse 620; TimerFires 0] initial
  = Some (mkWorld (mkFormData [] [] []) ∅ false []
            [CreatingPost (lit "Hello") (lit "World") 500;
             AddingComment (lit "Nice post!") 1120]
            1120).
Proof. reflexivity. Qed.

(** While a submission is in flight the form delivers no second submit,
    and the completion is not run before its delay has passed. *)
Example session_rejections :
  run dispatch (typing_and_submitting ++ [SubmitComment]) initial = None
  ∧ run dispatch (typing_and_submitting ++ [Elapse 499; TimerFires 0]) initial = None.
Proof. split; reflexivity. Qed.

(** C1 at the state with a post submission in flight. *)
Lemma ui_single_flight_witness :
  ui_reachable in_flight
  ∧ (length (st_timers in_flight) ≤ 1)%nat
  ∧ (st_isSubmitting in_flight = true ↔ length (st_timers in_flight) = 1%nat)
  ∧ (st_isSubmitting in_flight = true →
       dispatch SubmitPost in_flight = None ∧ dispatch SubmitComment in_flight = None).
Proof.
  assert (ui_reachable in_flight) as Hr by (exists typing_and_submitting; reflexivity).
  split; [exact Hr |]. exact (ui_single_flight in_flight Hr).
Defined.

(** C2 at "Hello" / "World", completing after exactly 500 ms. *)
Lemma handleCreatePost_success_witness :
  ¬ blank (postTitle (st_formData hello_world))
  ∧ ¬ blank (postContent (st_formData hello_world))
  ∧ st_isSubmitting (on_submit_post hello_world) = true
  ∧ ∃ w2, fire 0 (elapse 500 (on_submit_post hello_world)) = Some w2
      ∧ st_console w2 = [CreatingPost (lit "Hello") (lit "World") 500]
      ∧ postTitle (st_formData w2) = []
      ∧ postContent (st_formData w2) = []
      ∧ comment (st_formData w2) = lit "Nice post!"
      ∧ st_isSubmitting w2 = false.
Proof.
  assert (¬ blank (postTitle (st_formData hello_world))) as Ht by (by vm_compute).
  assert (¬ blank (postContent (st_formData hello_world))) as Hc by (by vm_compute).
  split; [exact Ht |]. split; [exact Hc |].
  destruct (handleCreatePost_success hello_world 500 Ht Hc)
    as (Hs & _ & _ & _ & Hdone).
  split; [exact Hs |].
  destruct Hdone as (w2 & Hf & Hlog & H1 & H2 & H3 & H4 & _); [reflexivity |].
  exists w2. repeat split; assumption.
Defined.

(** C3 at "Nice post!", completing after 750 ms. *)
Lemma handleAddComment_success_witness :
  ¬ blank (comment (st_formData hello_world))
  ∧ st_isSubmitting (on_submit_comment hello_world) = true
  ∧ ∃ w2, fire 0 (elapse 750 (on_submit_comment hello_world)) = Some w2
      ∧ st_console w2 = [AddingComment (lit "Nice post!") 750]
      ∧ comment (st_formData w2) = []
      ∧ postTitle (st_formData w2) = lit "Hello"
      ∧ postContent (st_formData w2) = lit "World"
      ∧ st_isSubmitting w2 = false.
Proof.
  assert (¬ blank (comment (st_formData hello_world))) as Hc by (by vm_compute).
  split; [exact Hc |].
  destruct (handleAddComment_success hello_world 750 Hc)
    as (Hs & _ & _ & _ & Hdone).
  split; [exact Hs |].
  destruct Hdone as (w2 & Hf & Hlog & H1 & H2 & H3 & H4 & _); [by vm_compute |].
  exists w2. repeat split; assumption.
Defined.

(** C4 at a title of three spaces. *)
Lemma submit_blank_rejected_witness :
  K_postTitle ∈ required_fields PostForm
  ∧ blank (get (st_formData spaces_for_title) K_postTitle)
  ∧ st_errors (submit PostForm spaces_for_title) !! K_postTitle
      = Some (Some (lit "Post title is required"))
  ∧ st_errors (submit PostForm spaces_for_title) !! K_postContent = None
  ∧ st_isSubmitting (submit PostForm spaces_for_title) = false
  ∧ st_console (submit PostForm spaces_for_title) = []
  ∧ st_timers (submit PostForm spaces_for_title) = [].
Proof.
  assert (K_postTitle ∈ required_fields PostForm) as Hin by (by left).
  assert (blank (get (st_formData spaces_for_title) K_postTitle)) as Hb by reflexivity.
  split; [exact Hin |]. split; [exact Hb |].
  destruct (submit_blank_rejected PostForm spaces_for_title K_postTitle Hin Hb)
    as (He & Hothers & Hs & Hlog & Ht & _).
  split; [exact He |].
  split; [rewrite Hothers; [reflexivity | by intros [_ ?]] |].
  repeat split; assumption.
Defined.

(** C7 at the rejected post form, validating the comment only. *)
Lemma validateForm_merges_witness :
  errors_recorded rejected
  ∧ st_errors rejected !! K_postTitle = Some (Some (lit "Post title is required"))
  ∧ st_errors (on_validate (Some [K_comment]) rejected).2 !! K_postTitle
      = Some (Some (lit "Post title is required")).
Proof.
  assert (errors_recorded rejected) as Hrec.
  { intros [] msg; vm_compute; intros [= <-]; reflexivity. }
  assert (st_errors rejected !! K_postTitle = Some (Some (lit "Post title is required")))
    as Hk by reflexivity.
  split; [exact Hrec |]. split; [exact Hk |].
  destruct (validateForm_merges rejected (Some [K_comment]) Hrec) as (Hkeep & _).
  exact (Hkeep K_postTitle _ Hk).
Defined.

(** C8 at the rejected post form, typing one space into the title. *)
Lemma handleInputChange_clears_witness :
  has_error rejected K_postTitle = true
  ∧ st_errors (on_change K_postTitle (lit " ") rejected) !! K_postTitle = Some None
  ∧ has_error (on_change K_postTitle (lit " ") rejected) K_postTitle = false.
Proof.
  assert (has_error rejected K_postTitle = true) as He by reflexivity.
  split; [exact He |].
  exact (handleInputChange_clears rejected K_postTitle (lit " ") He).
Defined.

(** C5 along the run that submits the empty post form and types a space. *)
Lemma error_iff_found_empty_and_unedited_witness :
  ∃ w h, run_noting submit_then_space initial no_history = Some (w, h)
    ∧ (∀ k, has_error w k = true ↔
            last_validation (h k) = FoundEmpty ∧ edited_since (h k) = false)
    ∧ (∀ e w' k, invoke e w = Some w' → has_error w k = true →
          (has_error w' k = false ↔ ∃ v, e = Change k v)).
Proof.
  eexists _, _. split; [reflexivity |].
  apply (error_iff_found_empty_and_unedited submit_then_space). reflexivity.
Defined.

(** ** The markup, read back *)

(** Proofs about the tree go by cases on what the three error entries and
    the flag hold; in each case the tree is closed enough to be read. *)
Ltac by_markup_cases errs sub :=
  unfold render, post_form, comment_form, error_paragraph;
  destruct (read errs K_postTitle) as [[|? ?]|];
  destruct (read errs K_postContent) as [[|? ?]|];
  destruct (read errs K_comment) as [[|? ?]|];
  destruct sub; reflexivity.

Lemma text_controls_render fd errs sub :
  text_controls (render fd errs sub) =
    [title_input fd errs sub; content_textarea fd errs sub; comment_textarea fd errs sub].
Proof. by_markup_cases errs sub. Qed.

Lemma buttons_render fd errs sub :
  buttons (render fd errs sub) = [post_button sub; comment_button sub].
Proof. by_markup_cases errs sub. Qed.

Lemma forms_render fd errs sub :
  forms (render fd errs sub) = [post_form fd errs sub; comment_form fd errs sub].
Proof. by_markup_cases errs sub. Qed.

Lemma can_submit_forms fd errs sub :
  can_submit (post_form fd errs sub) = negb sub
  ∧ can_submit (comment_form fd errs sub) = negb sub.
Proof. split; by_markup_cases errs sub. Qed.

Lemma shown_errors_render fd errs sub :
  shown_errors (render fd errs sub) =
    omap (λ k, if truthy_opt (read errs k) then read errs k else None)
         [K_postTitle; K_postContent; K_comment].
Proof.
  cbv beta iota fix delta [omap list_omap].
  by_markup_cases errs sub.
Qed.

Lemma control_attributes k w :
  id_of (control k w) = Some (field_id k)
  ∧ value_of (control k w) = Some (get (st_formData w) k)
  ∧ onChange_of (control k w) = Some (call_handleInputChange k)
  ∧ is_disabled (control k w) = st_isSubmitting w.
Proof. by destruct k. Qed.

Lemma text_controls_view w :
  text_controls (view w) = [control K_postTitle w; control K_postContent w; control K_comment w].
Proof. apply text_controls_render. Qed.

Lemma field_id_inj k k' : field_id k = field_id k' → k = k'.
Proof. destruct k, k'; first [done | by vm_compute]. Qed.

Lemma find_control_field k w : find_control (field_id k) (view w) = Some (control k w).
Proof.
  unfold find_control. rewrite text_controls_view. cbn [List.filter].
  destruct (control_attributes K_postTitle w) as (-> & _).
  destruct (control_attributes K_postContent w) as (-> & _).
  destruct (control_attributes K_comment w) as (-> & _).
  by destruct k.
Qed.

Lemma find_control_unknown target w :
  (∀ k, target ≠ field_id k) → find_control target (view w) = None.
Proof.
  intros Hne. unfold find_control. rewrite text_controls_view. cbn [List.filter].
  destruct (control_attributes K_postTitle w) as (-> & _).
  destruct (control_attributes K_postContent w) as (-> & _).
  destruct (control_attributes K_comment w) as (-> & _).
  rewrite !bool_decide_eq_false_2; [done | | |];
    intros [= <-];
    first [by destruct (Hne K_postTitle) | by destruct (Hne K_postContent)
          | by destruct (Hne K_comment)].
Qed.

Lemma displayed_value k w : displayed k w = Some (get (st_formData w) k).
Proof.
  unfold displayed. rewrite find_control_field. simpl.
  by destruct (control_attributes k w) as (_ & -> & _).
Qed.

(** X1. An event on the rendered tree reaches the handler the markup
    binds, or nothing.  Typing into the control of a field runs
    handleInputChange for that field, submitting the first form runs
    handleCreatePost and the second handleAddComment, each only while the
    controls are not disabled; there is no third form and no control with
    another id. *)
Theorem deliver_is_dispatch (w : World) :
  (∀ k v, deliver (Input (field_id k) v) w = dispatch (Change k v) w)
  ∧ deliver (Submit 0) w = dispatch SubmitPost w
  ∧ deliver (Submit 1) w = dispatch SubmitComment w
  ∧ (∀ i, (2 ≤ i)%nat → deliver (Submit i) w = None)
  ∧ (∀ target v, (∀ k, target ≠ field_id k) → deliver (Input target v) w = None).
Proof.
  split; [| split; [| split; [| split]]].
  - intros k v. unfold deliver. rewrite find_control_field.
    destruct (control_attributes k w) as (_ & _ & -> & ->). simpl.
    by destruct (st_isSubmitting w).
  - unfold deliver, view. rewrite forms_render. cbn [lookup list_lookup].
    rewrite (proj1 (can_submit_forms _ _ _)). simpl.
    by destruct (st_isSubmitting w).
  - unfold deliver, view. rewrite forms_render. cbn [lookup list_lookup].
    rewrite (proj2 (can_submit_forms _ _ _)). simpl.
    by destruct (st_isSubmitting w).
  - intros i Hi. unfold deliver, view. rewrite forms_render.
    destruct i as [|[|i]]; [lia | lia | done].
  - intros target v Hne. unfold deliver. by rewrite find_control_unknown.
Qed.

(** X2. The markup has three text controls and two buttons.  Each of the
    five is disabled exactly when isSubmitting is true, and both buttons
    change their label together: "Creating Post..." and "Adding
    Comment..." while it is true, "Create Post" and "Add Comment"
    otherwise. *)
Theorem controls_show_the_flag (w : World) :
  length (text_controls (view w)) = 3%nat
  ∧ length (buttons (view w)) = 2%nat
  ∧ Forall (λ n, is_disabled n = st_isSubmitting w)
           (text_controls (view w) ++ buttons (view w))
  ∧ textContent <$> buttons (view w) =
      if st_isSubmitting w
      then [lit "Creating Post..."; lit "Adding Comment..."]
      else [lit "Create Post"; lit "Add Comment"].
Proof.
  rewrite text_controls_view. unfold view at 1 2 3. rewrite buttons_render.
  split; [done |]. split; [done |]. split.
  - repeat constructor; first [apply control_attributes | done].
  - by destruct (st_isSubmitting w).
Qed.

(** X3. What is typed is what is displayed: when the form takes an input
    for a field, the control of that field shows the typed text in the
    next render, and the other two controls show what they showed. *)
Theorem typed_text_is_displayed (w w' : World) (k : Field) (v : jsstring) :
  deliver (Input (field_id k) v) w = Some w' →
  ∀ k', displayed k' w' = if decide (k' = k) then Some v else displayed k' w.
Proof.
  intros Hd k'.
  assert (dispatch (Change k v) w = Some w') as Hc.
  { rewrite <- Hd. unfold deliver. rewrite find_control_field.
    destruct (control_attributes k w) as (_ & _ & -> & ->). simpl.
    by destruct (st_isSubmitting w). }
  simpl in Hc. destruct (st_isSubmitting w); [done |]. injection Hc as <-.
  rewrite !displayed_value, on_change_eq. simpl. rewrite get_set.
  by case_decide.
Qed.

(** X4. In every state the handlers can produce, the messages on screen
    are exactly the fixed messages of the fields that carry an error, in
    the order title, content, comment; and a field under which a message
    is shown displays a value that is empty after trimming. *)
Theorem screen_shows_fixed_messages_on_blank_fields (w : World) :
  reachable w →
  shown_errors (view w) =
    required_message <$>
      List.filter (has_error w) [K_postTitle; K_postContent; K_comment]
  ∧ ∀ k, has_error w k = true →
         ∃ v, displayed k w = Some v ∧ blank v.
Proof.
  intros Hr. split.
  - unfold view. rewrite shown_errors_render.
    pose proof (reachable_errors_recorded w Hr) as Hrec.
    assert (∀ k, (if truthy_opt (read (st_errors w) k) then read (st_errors w) k else None)
                 = if has_error w k then Some (required_message k) else None) as Hk.
    { intros k. unfold has_error, read.
      destruct (st_errors w !! k) as [[msg|]|] eqn:E; simpl; try done.
      destruct (truthy msg); [| done]. by rewrite (Hrec k msg E). }
    cbv beta iota fix delta [omap list_omap]. rewrite !Hk. simpl.
    by destruct (has_error w K_postTitle), (has_error w K_postContent),
               (has_error w K_comment).
  - intros k He. exists (get (st_formData w) k).
    split; [apply displayed_value | by apply reachable_errors_on_blank].
Qed.

(** ** Validation passes, composed *)

Lemma on_validate_eq fs w :
  on_validate fs w =
    (bool_decide (foldl (check_field (st_formData w)) ∅ (targets fs) = ∅),
     mkWorld (st_formData w)
             (spread (st_errors w) (foldl (check_field (st_formData w)) ∅ (targets fs)))
             (st_isSubmitting w) (st_timers w) (st_console w) (st_clock w)).
Proof.
  rewrite <- validateForm_eval with (w := w), <- validateForm_exec.
  unfold on_validate, eval, exec. by destruct (validateForm _ _ w).
Qed.

Lemma newErrors_ext fd (fs1 fs2 : list Field) :
  (∀ k, k ∈ fs1 ↔ k ∈ fs2) →
  foldl (check_field fd) ∅ fs1 = foldl (check_field fd) ∅ fs2.
Proof.
  intros Hsame. apply map_eq. intros k. rewrite !newErrors_lookup.
  destruct (decide (k ∈ fs1 ∧ blank (get fd k))) as [[H1 Hb]|H1].
  - rewrite decide_True; [done |]. split; [by apply Hsame | done].
  - rewrite decide_False; [done |]. intros [H2 Hb]. apply H1.
    split; [by apply Hsame | done].
Qed.

Lemma newErrors_app fd (fs1 fs2 : list Field) :
  foldl (check_field fd) ∅ (fs1 ++ fs2) =
    spread (foldl (check_field fd) ∅ fs1) (foldl (check_field fd) ∅ fs2).
Proof.
  apply map_eq. intros k. rewrite spread_lookup, !newErrors_lookup, lookup_empty.
  destruct (decide (k ∈ fs2 ∧ blank (get fd k))) as [[H2 Hb]|H2].
  - rewrite decide_True; [done |]. split; [| done]. apply elem_of_app. by right.
  - destruct (decide (k ∈ fs1 ∧ blank (get fd k))) as [[H1 Hb]|H1].
    + rewrite decide_True; [done |]. split; [| done]. apply elem_of_app. by left.
    + rewrite decide_False; [done |].
      intros [[?|?]%elem_of_app Hb]; [apply H1 | apply H2]; done.
Qed.

(** X5. validateForm looks at a set of fields: the order of the array it
    is given and repetitions in it change neither its result nor the
    error mapping it leaves. *)
Theorem validateForm_set_of_fields (w : World) (fs1 fs2 : list Field) :
  (∀ k, k ∈ fs1 ↔ k ∈ fs2) →
  on_validate (Some fs1) w = on_validate (Some fs2) w.
Proof.
  intros Hsame. rewrite !on_validate_eq. simpl targets.
  by rewrite (newErrors_ext _ fs1 fs2 Hsame).
Qed.

(** X6. Two validation passes in a row amount to one pass over both
    arrays: the error mapping is the same, and the single pass succeeds
    exactly when both passes do.  Validating without an argument is the
    post form's pass followed by the comment form's; validating the empty
    array changes nothing and succeeds. *)
Theorem validateForm_in_two_passes (w : World) (fs1 fs2 : list Field) :
  let first := on_validate (Some fs1) w in
  let second := on_validate (Some fs2) first.2 in
  let both := on_validate (Some (fs1 ++ fs2)) w in
  second.2 = both.2
  ∧ first.1 && second.1 = both.1
  ∧ on_validate None w = on_validate (Some ([K_postTitle; K_postContent] ++ [K_comment])) w
  ∧ on_validate (Some []) w = (true, w).
Proof.
  cbv zeta. rewrite !on_validate_eq. simpl. split; [| split; [| split]].
  - f_equal. rewrite newErrors_app. unfold spread.
    by rewrite (assoc_L (∪)).
  - apply Bool.eq_iff_eq_true.
    rewrite andb_true_iff, !bool_decide_eq_true, !newErrors_empty.
    split.
    + intros [H1 H2] k [?|?]%elem_of_app; auto.
    + intros H. split; intros k Hk; apply H, elem_of_app; auto.
  - done.
  - rewrite spread_empty. by destruct w.
Qed.

(** X7. A rejected submit can be repeated without further effect: when a
    required field of a sub-form is blank, invoking its submit handler
    twice leaves the state the first invocation left. *)
Theorem rejected_submit_is_idempotent (f : SubForm) (w : World) (k : Field) :
  k ∈ required_fields f → blank (get (st_formData w) k) →
  submit f (submit f w) = submit f w.
Proof.
  intros Hin Hb.
  destruct (submit_frame f w) as (Hfd & _ & _ & Herr).
  assert (blank (get (st_formData (submit f w)) k)) as Hb' by by rewrite Hfd.
  assert (st_errors (submit f (submit f w)) = st_errors (submit f w)) as Hsame.
  { apply map_eq. intros k'.
    destruct (submit_frame f (submit f w)) as (_ & _ & _ & Herr').
    rewrite Herr', Hfd, Herr. by case_decide. }
  rewrite (submit_invalid f (submit f w) k Hin Hb'), Hsame.
  by destruct (submit f w).
Qed.

Lemma visible_iff_not_blank (s : jsstring) :
  ¬ blank s ↔ Exists (λ c, is_white c = false) s.
Proof.
  rewrite blank_whitespace_only. split.
  - intros Hn. induction s as [|c s IH]; [destruct Hn; constructor |].
    destruct (is_white c) eqn:Hc; [| by left].
    right. apply IH. intros Hf. apply Hn. by constructor.
  - intros He Hf. induction He as [c s Hc|c s _ IH];
      inversion Hf; subst; [congruence | auto].
Qed.

(** X8. A submit handler schedules a completion exactly when every
    required field of its sub-form holds at least one code unit that is
    not white space; otherwise the timers stay as they are. *)
Theorem submit_schedules_iff_visible_text (f : SubForm) (w : World) :
  (length (st_timers (submit f w)) = S (length (st_timers w)) ↔
     ∀ k, k ∈ required_fields f →
          Exists (λ c, is_white c = false) (get (st_formData w) k))
  ∧ (st_timers (submit f w) = st_timers w ↔
     ∃ k, k ∈ required_fields f
          ∧ Forall (λ c, is_white c = true) (get (st_formData w) k)).
Proof.
  pose proof visible_iff_not_blank as Hvis.
  destruct ((on_validate (Some (required_fields f)) w).1) eqn:Hv.
  - pose proof (proj1 (on_validate_true _ _) Hv) as Hok.
    rewrite (submit_valid f w Hok). simpl. rewrite length_app. simpl.
    split; split.
    + intros _ k Hk. by apply Hvis, Hok.
    + intros _. lia.
    + intros E. apply (f_equal length) in E. rewrite length_app in E.
      simpl in E. lia.
    + intros (k & Hk & Hw). apply blank_whitespace_only in Hw.
      by destruct (Hok k Hk).
  - assert (∃ k, k ∈ required_fields f ∧ blank (get (st_formData w) k))
      as (k & Hk & Hb).
    { destruct (decide (Exists (λ k, blank (get (st_formData w) k))
                               (required_fields f))) as [He|Hn].
      - apply Exists_exists in He. naive_solver.
      - assert ((on_validate (Some (required_fields f)) w).1 = true); [| congruence].
        apply on_validate_true. intros k' Hk' Hb'. apply Hn, Exists_exists. eauto. }
    rewrite (submit_invalid f w k Hk Hb). simpl. split; split.
    + intros E. lia.
    + intros Hall. apply Hvis in Hb; [done | by apply Hall].
    + intros _. exists k. split; [done | by apply blank_whitespace_only].
    + done.
Qed.

(** ** Edits, composed *)

(** X9. A later edit of a field overrides an earlier one of the same
    field, and edits of different fields can be made in either order:
    both give the same state. *)
Theorem edits_compose (w : World) (k1 k2 : Field) (v1 v2 : jsstring) :
  on_change k2 v2 (on_change k1 v1 w) =
    if decide (k1 = k2) then on_change k2 v2 w
    else on_change k1 v1 (on_change k2 v2 w).
Proof.
  case_decide as Hk.
  - subst k2. rewrite (on_change_eq k1 v2 (on_change k1 v1 w)).
    rewrite has_error_change, decide_True by done.
    rewrite !on_change_eq. simpl. f_equal. by destruct k1.
  - rewrite (on_change_eq k2 v2 (on_change k1 v1 w)).
    rewrite (on_change_eq k1 v1 (on_change k2 v2 w)).
    rewrite !has_error_change, !decide_False by done.
    rewrite !on_change_eq. simpl. f_equal.
    + by destruct k1, k2.
    + destruct (has_error w k1), (has_error w k2); try done.
      by apply insert_insert_ne.
Qed.

(** ** Submissions and their completions along runs *)

(** A submit either passes validation and appends one timer, or changes
    the error mapping only. *)
Lemma submit_cases f w :
  ((on_validate (Some (required_fields f)) w).1 = true
   ∧ (∀ k, k ∈ required_fields f → ¬ blank (get (st_formData w) k))
   ∧ ∃ cb, captured cb = st_formData w
       ∧ validated_for cb = required_fields f
       ∧ submit f w =
           mkWorld (st_formData w) (st_errors w) true
                   (st_timers w ++ [mkTimer (st_clock w + 500) cb])
                   (st_console w) (st_clock w))
  ∨ ((on_validate (Some (required_fields f)) w).1 = false
     ∧ submit f w =
         mkWorld (st_formData w) (st_errors (submit f w)) (st_isSubmitting w)
                 (st_timers w) (st_console w) (st_clock w)).
Proof.
  destruct ((on_validate (Some (required_fields f)) w).1) eqn:Hv.
  - left. pose proof (proj1 (on_validate_true _ _) Hv) as Hok.
    split; [done |]. split; [done |].
    rewrite (submit_valid f w Hok).
    destruct f; [exists (CreatePostDone (st_formData w))
                | exists (AddCommentDone (st_formData w))]; done.
  - right. split; [done |].
    rewrite submit_eq at 1. cbv zeta. rewrite Hv.
    rewrite on_validate_eq. simpl.
    rewrite submit_eq. cbv zeta. rewrite Hv. by rewrite on_validate_eq.
Qed.

Lemma fire_eq i w w' :
  fire i w = Some w' ↔
  ∃ t, st_timers w !! i = Some t ∧ due t ≤ st_clock w
       ∧ w' = mkWorld
                (match callback t with
                 | CreatePostDone _ => mkFormData [] [] (comment (st_formData w))
                 | AddCommentDone _ =>
                     mkFormData (postTitle (st_formData w)) (postContent (st_formData w)) []
                 end)
                (st_errors w) false (delete i (st_timers w))
                (st_console w ++ [entry_of (callback t) (st_clock w)])
                (st_clock w).
Proof.
  unfold fire. destruct (st_timers w !! i) as [t|]; [| split; [done | by intros (? & ? & _)]].
  destruct (N.leb_spec (due t) (st_clock w)) as [Hle|Hlt].
  - rewrite run_callback_eq. simpl. split.
    + intros [= <-]. exists t. split; [done |]. split; [done |].
      by destruct (callback t).
    + intros (t' & [= <-] & _ & ->). by destruct (callback t).
  - split; [done |]. intros (t' & [= <-] & Hle & _). lia.
Qed.

Lemma invoke_keeps_entries_ok e w w' :
  Forall timer_ok (st_timers w) ∧ Forall entry_ok (st_console w) →
  invoke e w = Some w' →
  Forall timer_ok (st_timers w') ∧ Forall entry_ok (st_console w').
Proof.
  intros [Ht Hc].
  assert (∀ f, Forall timer_ok (st_timers (submit f w))
               ∧ Forall entry_ok (st_console (submit f w))) as Hsub.
  { intros f. destruct (submit_cases f w)
      as [(_ & Hok & cb & Hcap & Hfor & ->)|(_ & ->)]; simpl; [| done].
    split; [| done]. apply Forall_app. split; [done |].
    constructor; [| done]. split; simpl; [| lia].
    intros k Hk. rewrite Hcap. apply Hok. by rewrite <- Hfor. }
  destruct e as [field v| | |dt|i]; simpl.
  - intros [= <-]. by rewrite on_change_eq.
  - intros [= <-]. apply (Hsub PostForm).
  - intros [= <-]. apply (Hsub CommentForm).
  - by intros [= <-].
  - intros (t & Hi & Hdue & ->)%fire_eq. simpl. split.
    + by apply Forall_delete.
    + apply Forall_app. split; [done |]. constructor; [| done].
      destruct (Forall_lookup_1 _ _ _ _ Ht Hi) as [Hok H500].
      destruct (callback t) as [d|d]; simpl in *.
      * split; [apply (Hok K_postTitle); by left |].
        split; [apply (Hok K_postContent); right; by left | lia].
      * split; [apply (Hok K_comment); by left | lia].
Qed.

(** X10. Whatever the handlers and timers do, every entry that reaches the
    console carries values that passed validation (a title and a content,
    or a comment, that are not blank) and is stamped at least 500 ms after
    mount; the same holds of the values every pending completion closed
    over. *)
Theorem logged_entries_are_valid (w : World) :
  reachable w →
  Forall entry_ok (st_console w) ∧ Forall timer_ok (st_timers w).
Proof.
  intros [es Hes].
  pose proof (run_invariant invoke
                (λ w, Forall timer_ok (st_timers w) ∧ Forall entry_ok (st_console w))
                invoke_keeps_entries_ok es initial w) as H.
  destruct H as [H1 H2]; [by split | done | by split].
Qed.

Lemma invoke_counts e w w' :
  invoke e w = Some w' →
  (length (st_console w') + length (st_timers w')
   = length (st_console w) + length (st_timers w) + (if accepts e w then 1 else 0))%nat.
Proof.
  assert (∀ f, (length (st_console (submit f w)) + length (st_timers (submit f w))
                = length (st_console w) + length (st_timers w)
                  + (if (on_validate (Some (required_fields f)) w).1 then 1 else 0))%nat)
    as Hsub.
  { intros f. destruct (submit_cases f w)
      as [(-> & _ & cb & _ & _ & ->)|(-> & ->)]; simpl; [| lia].
    rewrite length_app. simpl. lia. }
  destruct e as [field v| | |dt|i]; simpl.
  - intros [= <-]. rewrite on_change_eq. simpl. lia.
  - intros [= <-]. apply (Hsub PostForm).
  - intros [= <-]. apply (Hsub CommentForm).
  - intros [= <-]. simpl. lia.
  - intros (t & Hi & _ & ->)%fire_eq. simpl.
    rewrite length_app, length_delete by by eexists. simpl.
    apply lookup_lt_Some in Hi. lia.
Qed.

(** X11. Nothing is logged twice and nothing is dropped: after any run of
    handlers and timers from mount, the number of console entries plus the
    number of pending completions equals the number of submits that
    passed validation. *)
Theorem one_entry_per_accepted_submit (es : list Event) (w : World) :
  run invoke es initial = Some w →
  (length (st_console w) + length (st_timers w) = accepted es initial)%nat.
Proof.
  assert (∀ w0, run invoke es w0 = Some w →
            (length (st_console w) + length (st_timers w)
             = length (st_console w0) + length (st_timers w0) + accepted es w0)%nat)
    as Hgen.
  { induction es as [|e es IH]; intros w0; simpl.
    - intros [= <-]. lia.
    - destruct (invoke e w0) as [w1|] eqn:E; [| done]. intros Hrun.
      rewrite (IH w1 Hrun), (invoke_counts e w0 w1 E). lia. }
  intros Hrun. by rewrite (Hgen initial Hrun).
Qed.

(** X12. The completion logs what was submitted and resets what is there
    when it runs: if a field is edited (by a direct call of the input
    handler) between a successful post submit and its completion, the
    entry still carries the title and content of the submit, the post
    fields end up empty whatever was typed, and the comment keeps the
    latest text. *)
Theorem completion_logs_submitted_values
    (w : World) (k : Field) (v : jsstring) (dt : N) :
  ¬ blank (postTitle (st_formData w)) →
  ¬ blank (postContent (st_formData w)) →
  500 ≤ dt →
  ∃ w',
    run invoke [SubmitPost; Change k v; Elapse dt; TimerFires (length (st_timers w))] w
      = Some w'
    ∧ st_console w' =
        st_console w ++ [CreatingPost (postTitle (st_formData w))
                                      (postContent (st_formData w))
                                      (st_clock w + dt)]
    ∧ st_formData w' =
        mkFormData [] [] (if decide (k = K_comment) then v else comment (st_formData w))
    ∧ st_isSubmitting w' = false
    ∧ st_timers w' = st_timers w.
Proof.
  intros Ht Hc Hdt.
  assert (∀ k, k ∈ required_fields PostForm → ¬ blank (get (st_formData w) k)) as Hv.
  { intros k' [->|[->|[]%elem_of_nil]%elem_of_cons]%elem_of_cons; done. }
  pose proof (submit_valid PostForm w Hv) as Hsub.
  change (submit PostForm) with on_submit_post in Hsub.
  cbn [run invoke]. rewrite Hsub, on_change_eq. unfold fire, elapse. simpl.
  rewrite list_lookup_middle by done. simpl.
  rewrite (proj2 (N.leb_le _ _)) by lia.
  rewrite delete_middle, app_nil_r.
  eexists. split; [done |]. simpl. repeat split. by destruct k.
Qed.

Lemma dispatch_in_flight_or_idle e w w' :
  in_flight_or_idle w → dispatch e w = Some w' → in_flight_or_idle w'.
Proof.
  intros Hw.
  assert (∀ f, st_isSubmitting w = false → in_flight_or_idle (submit f w)) as Hsub.
  { intros f Hs. destruct Hw as [[Ht _]|(t & _ & ? & _)]; [| congruence].
    destruct (submit_cases f w) as [(_ & _ & cb & Hcap & _ & ->)|(_ & ->)].
    - right. eexists. simpl. rewrite Ht. split; [done |]. split; [done |].
      split; [done | exact (N.le_refl _)].
    - by left. }
  destruct e as [field v| | |dt|i]; simpl.
  - destruct (st_isSubmitting w) eqn:Hs; [done |]. intros [= <-].
    rewrite on_change_eq. destruct Hw as [[Ht _]|(t & _ & ? & _)]; [| congruence].
    by left.
  - destruct (st_isSubmitting w) eqn:Hs; [done |]. intros [= <-].
    by apply (Hsub PostForm).
  - destruct (st_isSubmitting w) eqn:Hs; [done |]. intros [= <-].
    by apply (Hsub CommentForm).
  - intros [= <-]. destruct Hw as [Hw|(t & Ht & Hs & Hcap & Hdue)]; [by left |].
    right. exists t. simpl. repeat split; try done. lia.
  - intros (t & Hi & _ & ->)%fire_eq. left. simpl. split; [| done].
    destruct Hw as [[Hnil _]|(t' & Hone & _)].
    + by rewrite Hnil in Hi.
    + rewrite Hone in *. by destruct i.
Qed.

(** X13. Through the form a submission cannot stay in flight: in every
    state a user can reach with isSubmitting true, once 500 ms or more
    have passed the one pending completion runs, logs one entry with the
    values that are on screen (nothing could be typed meanwhile), empties
    the fields of its sub-form, leaves the error mapping alone and
    returns the form to idle with nothing pending. *)
Theorem submission_always_completes (w : World) (dt : N) :
  ui_reachable w → st_isSubmitting w = true → 500 ≤ dt →
  ∃ w', run dispatch [Elapse dt; TimerFires 0] w = Some w'
    ∧ st_isSubmitting w' = false
    ∧ st_timers w' = []
    ∧ st_errors w' = st_errors w
    ∧ ((st_console w' =
          st_console w ++ [CreatingPost (postTitle (st_formData w))
                                        (postContent (st_formData w))
                                        (st_clock w + dt)]
        ∧ st_formData w' = mkFormData [] [] (comment (st_formData w)))
       ∨ (st_console w' =
            st_console w ++ [AddingComment (comment (st_formData w)) (st_clock w + dt)]
          ∧ st_formData w' =
              mkFormData (postTitle (st_formData w)) (postContent (st_formData w)) [])).
Proof.
  intros [es Hes] Hs Hdt.
  assert (in_flight_or_idle w) as Hw.
  { apply (run_invariant dispatch in_flight_or_idle dispatch_in_flight_or_idle
             es initial w); [by left | done]. }
  destruct Hw as [[_ ?]|(t & Ht & _ & Hcap & Hdue)]; [congruence |].
  cbn [run dispatch invoke]. unfold fire, elapse. simpl. rewrite Ht. simpl.
  rewrite (proj2 (N.leb_le _ _)) by lia.
  rewrite run_callback_eq. simpl.
  eexists. split; [done |]. simpl. repeat split.
  destruct (callback t) as [d|d]; simpl in Hcap; subst d; [by left | by right].
Qed.

(** ** The further theorems at concrete states *)

(** X3 at the state with the title missing: typing "Hi" into the title. *)
Lemma typed_text_is_displayed_witness :
  deliver (Input (field_id K_postTitle) (lit "Hi")) title_missing
    = Some (on_change K_postTitle (lit "Hi") title_missing)
  ∧ displayed K_postTitle (on_change K_postTitle (lit "Hi") title_missing)
      = Some (lit "Hi")
  ∧ displayed K_comment (on_change K_postTitle (lit "Hi") title_missing)
      = Some (lit "Nice post!").
Proof.
  assert (deliver (Input (field_id K_postTitle) (lit "Hi")) title_missing
          = Some (on_change K_postTitle (lit "Hi") title_missing)) as Hd
    by reflexivity.
  split; [exact Hd |].
  pose proof (typed_text_is_displayed _ _ _ _ Hd) as H.
  split; [exact (H K_postTitle) | exact (H K_comment)].
Defined.

(** X4 at the rejected empty post form. *)
Lemma screen_shows_fixed_messages_on_blank_fields_witness :
  reachable rejected
  ∧ shown_errors (view rejected)
      = [lit "Post title is required"; lit "Post content is required"]
  ∧ ∃ v, displayed K_postTitle rejected = Some v ∧ blank v.
Proof.
  assert (reachable rejected) as Hr by (exists [SubmitPost]; reflexivity).
  split; [exact Hr |].
  destruct (screen_shows_fixed_messages_on_blank_fields rejected Hr) as [Hs Hb].
  split; [exact Hs | exact (Hb K_postTitle eq_refl)].
Defined.

(** X5 at the post form's fields, reordered and repeated. *)
Lemma validateForm_set_of_fields_witness :
  (∀ k, k ∈ [K_postTitle; K_postContent] ↔ k ∈ [K_postContent; K_postTitle; K_postContent])
  ∧ on_validate (Some [K_postTitle; K_postContent]) spaces_for_title
    = on_validate (Some [K_postContent; K_postTitle; K_postContent]) spaces_for_title.
Proof.
  assert (∀ k, k ∈ [K_postTitle; K_postContent]
               ↔ k ∈ [K_postContent; K_postTitle; K_postContent]) as Hsame.
  { intros k. rewrite !elem_of_cons, !elem_of_nil. tauto. }
  split; [exact Hsame |].
  exact (validateForm_set_of_fields spaces_for_title _ _ Hsame).
Defined.

(** X7 at a title of three spaces. *)
Lemma rejected_submit_is_idempotent_witness :
  K_postTitle ∈ required_fields PostForm
  ∧ blank (get (st_formData spaces_for_title) K_postTitle)
  ∧ submit PostForm (submit PostForm spaces_for_title) = submit PostForm spaces_for_title.
Proof.
  assert (K_postTitle ∈ required_fields PostForm) as Hin by (by left).
  assert (blank (get (st_formData spaces_for_title) K_postTitle)) as Hb by reflexivity.
  split; [exact Hin |]. split; [exact Hb |].
  exact (rejected_submit_is_idempotent PostForm spaces_for_title K_postTitle Hin Hb).
Defined.

(** X10 at the state with a post submission in flight. *)
Lemma logged_entries_are_valid_witness :
  reachable in_flight
  ∧ Forall entry_ok (st_console in_flight) ∧ Forall timer_ok (st_timers in_flight).
Proof.
  assert (reachable in_flight) as Hr by (exists typing_and_submitting; reflexivity).
  split; [exact Hr |]. exact (logged_entries_are_valid in_flight Hr).
Defined.

(** X11 along typing, one accepted and one rejected submit. *)
Lemma one_entry_per_accepted_submit_witness :
  run invoke (typing_and_submitting ++ [Change K_comment []; SubmitComment]) initial
    = Some (on_submit_comment (on_change K_comment [] in_flight))
  ∧ (length (st_console (on_submit_comment (on_change K_comment [] in_flight)))
     + length (st_timers (on_submit_comment (on_change K_comment [] in_flight)))
     = accepted (typing_and_submitting ++ [Change K_comment []; SubmitComment]) initial)%nat.
Proof.
  assert (run invoke (typing_and_submitting ++ [Change K_comment []; SubmitComment]) initial
          = Some (on_submit_comment (on_change K_comment [] in_flight))) as Hrun
    by reflexivity.
  split; [exact Hrun |].
  exact (one_entry_per_accepted_submit _ _ Hrun).
Defined.

(** X12 at "Hello" / "World": the title is retyped while in flight. *)
Lemma completion_logs_submitted_values_witness :
  ¬ blank (postTitle (st_formData hello_world))
  ∧ ¬ blank (postContent (st_formData hello_world))
  ∧ 500 ≤ 600
  ∧ ∃ w',
      run invoke [SubmitPost; Change K_postTitle (lit "Bye"); Elapse 600; TimerFires 0]
          hello_world = Some w'
      ∧ st_console w' = [CreatingPost (lit "Hello") (lit "World") 600]
      ∧ st_formData w' = mkFormData [] [] (lit "Nice post!").
Proof.
  assert (¬ blank (postTitle (st_formData hello_world))) as Ht by (by vm_compute).
  assert (¬ blank (postContent (st_formData hello_world))) as Hc by (by vm_compute).
  assert (500 ≤ 600) as Hdt by (by vm_compute).
  split; [exact Ht |]. split; [exact Hc |]. split; [exact Hdt |].
  destruct (completion_logs_submitted_values hello_world K_postTitle (lit "Bye") 600
              Ht Hc Hdt) as (w' & Hrun & Hlog & Hfd & _).
  exists w'. split; [exact Hrun |]. split; [exact Hlog | exact Hfd].
Defined.

(** X13 at the state with a post submission in flight, 500 ms later. *)
Lemma submission_always_completes_witness :
  ui_reachable in_flight
  ∧ st_isSubmitting in_flight = true
  ∧ 500 ≤ 500
  ∧ ∃ w', run dispatch [Elapse 500; TimerFires 0] in_flight = Some w'
      ∧ st_isSubmitting w' = false
      ∧ st_timers w' = [].
Proof.
  assert (ui_reachable in_flight) as Hr by (exists typing_and_submitting; reflexivity).
  assert (500 ≤ 500) as Hdt by reflexivity.
  split; [exact Hr |]. split; [reflexivity |]. split; [exact Hdt |].
  destruct (submission_always_completes in_flight 500 Hr eq_refl Hdt)
    as (w' & Hrun & Hs & Ht & _).
  exists w'. split; [exact Hrun |]. split; [exact Hs | exact Ht].
Defined.
